(** * Castle / OpenClaw secret detector: the three denylist patterns

    A shallow embedding of [castle_secrets.py].  The plugin is a
    [RegexBasedDetector] whose whole content is a [denylist] of three
    patterns compiled with [re.compile]; scanning a piece of text is the
    inherited [analyze_string], which runs [findall] of every compiled
    pattern over the text, in denylist order.  What the host framework
    does with the matches afterwards (files, lines, baselines, reports)
    is not part of the plugin and is not modelled.

    The development follows that structure:
    - code points, and the character categories [\s] and [\w] of a
      [str] pattern;
    - the compiled form of a pattern ([regex]) and [re_compile], a reader
      of the pattern syntax the three patterns are written in;
    - the backtracking matcher ([rep], [bt]) and the left-to-right scan
      ([finditer], [findall]);
    - the detector ([CastleOpenClawDetector], [analyze_string]);
    - a declarative reading of a pattern ([Matches]) against which the
      matcher is proved sound, complete and, for the three patterns,
      longest-match. *)

From Stdlib Require Import String Ascii NArith Arith Bool Lia List.
Import ListNotations.

Open Scope N_scope.

(** ** Text *)

(** A Python [str] is a sequence of code points. *)
Definition char := N.
Definition text := list char.

Definition ch (a : ascii) : char := N_of_ascii a.

Fixpoint codes (s : string) : text :=
  match s with
  | EmptyString => []
  | String a s' => ch a :: codes s'
  end.

(** The two characters that cannot be written inside a string literal
    here without doubling or ending it. *)
Definition DQ : char := 34.  (* the double quote *)
Definition BS : char := 92.  (* the backslash *)

(** ** Character categories *)

(** ASCII part of [str.isspace]: TAB..CR, FS..US and the space. *)
Definition ascii_isspace (c : char) : bool :=
  ((9 <=? c) && (c <=? 13)) || ((28 <=? c) && (c <=? 32)).

Definition ascii_isdigit (c : char) : bool := (48 <=? c) && (c <=? 57).

Definition ascii_isalnum (c : char) : bool :=
  ascii_isdigit c || ((65 <=? c) && (c <=? 90)) || ((97 <=? c) && (c <=? 122)).

(** ** Compiled patterns *)

(** One member of a bracketed set. *)
Inductive cset_item : Type :=
| CChar (c : char)            (* a literal character *)
| CRange (lo hi : char)       (* lo-hi *)
| CSpace                      (* \s *)
| CWord.                      (* \w *)

(** A set [[...]] or, negated, [[^...]]. *)
Record cset : Type := mkSet { negated : bool; items : list cset_item }.

(** A pattern is read left to right: each constructor is one item of the
    pattern followed by the rest of the pattern.  The three patterns use
    literals, sets, greedy repeats of a single character or set, and
    negative lookahead. *)
Inductive regex : Type :=
| Nil                                                  (* end of pattern *)
| Lit (c : char) (r : regex)                           (* c *)
| One (cs : cset) (r : regex)                          (* [...] or a category *)
| Repeat (cs : cset) (lo : nat) (hi : option nat) (r : regex)
                                                       (* x* x+ x? x{lo,hi} *)
| NotAhead (q : regex) (r : regex).                    (* (?!q) *)

Fixpoint lits (cs : text) (r : regex) : regex :=
  match cs with
  | [] => r
  | c :: cs' => Lit c (lits cs' r)
  end.

(** ** [re.compile] *)

(** [re.compile] raises [re.error] on a malformed pattern.  The reader
    below covers the syntax the three patterns are written in; a
    construct outside it is refused as [Unsupported], apart from
    [BadPattern]. *)
Inductive re_error : Type :=
| BadPattern (msg : string)
| Unsupported (what : string).

Inductive result (A : Type) : Type :=
| Ok (a : A)
| Raise (e : re_error).
Arguments Ok {A} a.
Arguments Raise {A} e.

Definition bind {A B : Type} (m : result A) (f : A -> result B) : result B :=
  match m with
  | Ok a => f a
  | Raise e => Raise e
  end.

(** What a quantifier applies to. *)
Inductive atom : Type :=
| ALit (c : char)
| ASet (cs : cset).

Definition single (c : char) : cset := mkSet false [CChar c].
Definition category (i : cset_item) : cset := mkSet false [i].

Definition mk_item (a : atom) (q : option (nat * option nat)) (r : regex) : regex :=
  match a, q with
  | ALit c, None => Lit c r
  | ASet cs, None => One cs r
  | ALit c, Some (lo, hi) => Repeat (single c) lo hi r
  | ASet cs, Some (lo, hi) => Repeat cs lo hi r
  end.

(** A backslash escape: [\s], [\w], or an escaped punctuation character
    standing for itself. *)
Definition parse_escape (s : text) : result (cset_item * text) :=
  match s with
  | [] => Raise (BadPattern "bad escape (end of pattern)")
  | e :: t =>
      if e =? ch "s" then Ok (CSpace, t)
      else if e =? ch "w" then Ok (CWord, t)
      else if ascii_isalnum e then Raise (Unsupported "escape")
      else Ok (CChar e, t)
  end.

Definition set_member (s : text) : result (cset_item * text) :=
  match s with
  | [] => Raise (BadPattern "unterminated character set")
  | c :: t => if c =? BS then parse_escape t else Ok (CChar c, t)
  end.

(** The members of a set up to its closing bracket; [first] holds at the
    first member, where a closing bracket stands for itself. *)
Fixpoint parse_set (fuel : nat) (first : bool) (s : text)
    : result (list cset_item * text) :=
  match fuel with
  | O => Raise (BadPattern "unterminated character set")
  | S f =>
      match s with
      | [] => Raise (BadPattern "unterminated character set")
      | c :: t =>
          if (c =? ch "]") && negb first then Ok ([], t)
          else
            bind (set_member s) (fun '(a, s1) =>
            let plain :=
              bind (parse_set f false s1) (fun '(its, s2) => Ok (a :: its, s2)) in
            match s1 with
            | d :: (e :: _) as s2 =>
                if (d =? ch "-") && negb (e =? ch "]") then
                  bind (set_member s2) (fun '(b, s3) =>
                  match a, b with
                  | CChar lo, CChar hi =>
                      if hi <? lo then Raise (BadPattern "bad character range")
                      else bind (parse_set f false s3)
                             (fun '(its, s4) => Ok (CRange lo hi :: its, s4))
                  | _, _ => Raise (BadPattern "bad character range")
                  end)
                else plain
            | _ => plain
            end)
      end
  end.

Fixpoint take_digits (s : text) (acc : option nat) : option nat * text :=
  match s with
  | c :: t =>
      if ascii_isdigit c then
        take_digits t
          (Some (10 * match acc with Some a => a | None => O end
                 + N.to_nat (c - 48))%nat)
      else (acc, s)
  | [] => (acc, s)
  end.

(** What follows an opening brace, when it is a quantifier:
    [{m}], [{m,}], [{,n}], [{m,n}]. *)
Definition parse_brace (s : text) : option ((nat * option nat) * text) :=
  match s with
  | c :: _ =>
      if c =? ch "}" then None
      else
        let '(lo, s1) := take_digits s None in
        let '(hi, s2) :=
          match s1 with
          | d :: t => if d =? ch "," then take_digits t None else (lo, s1)
          | [] => (lo, s1)
          end in
        match s2 with
        | d :: t =>
            if d =? ch "}" then
              Some ((match lo with Some m => m | None => O end, hi), t)
            else None
        | [] => None
        end
  | [] => None
  end.

Definition parse_repeat (s : text) : result (option (nat * option nat) * text) :=
  match s with
  | [] => Ok (None, [])
  | c :: t =>
      let q :=
        if c =? ch "*" then Some ((O, None), t)
        else if c =? ch "+" then Some ((1%nat, None), t)
        else if c =? ch "?" then Some ((O, Some 1%nat), t)
        else if c =? ch "{" then parse_brace t
        else None in
      match q with
      | None => Ok (None, s)
      | Some ((lo, hi), t') =>
          let bounds_ok :=
            match hi with Some h => Nat.leb lo h | None => true end in
          let next := match t' with d :: _ => d | [] => 0 end in
          if negb bounds_ok then
            Raise (BadPattern "min repeat greater than max repeat")
          else if (next =? ch "?") || (next =? ch "+") then
            Raise (Unsupported "lazy or possessive repeat")
          else if next =? ch "*" then Raise (BadPattern "multiple repeat")
          else Ok (Some (lo, hi), t')
      end
  end.

Definition parse_atom (s : text) : result (atom * text) :=
  match s with
  | [] => Raise (BadPattern "unexpected end of pattern")
  | c :: t =>
      if c =? BS then
        bind (parse_escape t) (fun '(i, s1) =>
        match i with
        | CChar x => Ok (ALit x, s1)
        | _ => Ok (ASet (category i), s1)
        end)
      else if c =? ch "[" then
        match t with
        | x :: t' =>
            if x =? ch "^" then
              bind (parse_set (length t') true t')
                (fun '(its, s1) => Ok (ASet (mkSet true its), s1))
            else
              bind (parse_set (length t) true t)
                (fun '(its, s1) => Ok (ASet (mkSet false its), s1))
        | [] => Raise (BadPattern "unterminated character set")
        end
      else if (c =? ch "*") || (c =? ch "+") || (c =? ch "?") then
        Raise (BadPattern "nothing to repeat")
      else if c =? ch "{" then
        match parse_brace t with
        | Some _ => Raise (BadPattern "nothing to repeat")
        | None => Ok (ALit c, t)
        end
      else if (c =? ch ".") || (c =? ch "^") || (c =? ch "$") || (c =? ch "|")
      then Raise (Unsupported "wildcard, anchor or alternation")
      else Ok (ALit c, t)
  end.

Definition starts_repeat (s : text) : bool :=
  match s with
  | c :: _ => (c =? ch "*") || (c =? ch "+") || (c =? ch "?") || (c =? ch "{")
  | [] => false
  end.

(** The items of a pattern up to its end or to the closing parenthesis of
    the group being read, which is left in place. *)
Fixpoint parse_seq (fuel : nat) (s : text) : result (regex * text) :=
  match fuel with
  | O => Raise (BadPattern "pattern too long")
  | S f =>
      match s with
      | [] => Ok (Nil, [])
      | c :: t =>
          if c =? ch ")" then Ok (Nil, s)
          else if c =? ch "(" then
            match t with
            | q :: b :: body =>
                if (q =? ch "?") && (b =? ch "!") then
                  bind (parse_seq f body) (fun '(inner, s1) =>
                  match s1 with
                  | _ :: s2 =>
                      if starts_repeat s2 then Raise (Unsupported "repeated group")
                      else bind (parse_seq f s2) (fun '(rest, s3) =>
                           Ok (NotAhead inner rest, s3))
                  | [] =>
                      Raise (BadPattern "missing ), unterminated subpattern")
                  end)
                else Raise (Unsupported "group")
            | _ => Raise (Unsupported "group")
            end
          else
            bind (parse_atom s) (fun '(a, s1) =>
            bind (parse_repeat s1) (fun '(q, s2) =>
            bind (parse_seq f s2) (fun '(rest, s3) =>
            Ok (mk_item a q rest, s3))))
      end
  end.

Definition re_compile (p : text) : result regex :=
  bind (parse_seq (S (length p)) p) (fun '(r, rest) =>
  match rest with
  | [] => Ok r
  | _ :: _ => Raise (BadPattern "unbalanced parenthesis")
  end).

(** ** The plugin *)

(** The three patterns, as written in the class body. *)
Definition reward_pattern : text := codes "rew_[a-f0-9]{32,}".

Definition gateway_pattern : text :=
  codes "OPENCLAW_GATEWAY_TOKEN\s*=\s*[" ++ [BS; DQ] ++
  codes "']?(?!\$\{)[^\s" ++ [BS; DQ] ++ codes "']{8,}".

Definition websocket_pattern : text :=
  codes "wss?://(?!localhost)(?!127\.0\.0\.1)(?!0\.0\.0\.0)[a-zA-Z0-9][\w.\-:]+".

Definition denylist_patterns : list text :=
  [reward_pattern; gateway_pattern; websocket_pattern].

Record Detector : Type := mkDetector {
  secret_type : string;
  denylist : list regex
}.

Fixpoint compile_all (ps : list text) : result (list regex) :=
  match ps with
  | [] => Ok []
  | p :: ps' =>
      bind (re_compile p) (fun r =>
      bind (compile_all ps') (fun rs => Ok (r :: rs)))
  end.

(** Executing a class body whose [denylist] is the list of
    [re.compile(p)] for [p] in [ps]: the class exists when every
    compilation returned. *)
Definition define_detector (ty : string) (ps : list text) : result Detector :=
  bind (compile_all ps) (fun rs => Ok (mkDetector ty rs)).

Definition CastleOpenClawDetector : result Detector :=
  define_detector "Castle/OpenClaw Secret" denylist_patterns.

(** The compiled patterns. *)
Definition hex_set : cset :=
  mkSet false [CRange (ch "a") (ch "f"); CRange (ch "0") (ch "9")].
Definition space_set : cset := mkSet false [CSpace].
Definition quote_set : cset := mkSet false [CChar DQ; CChar (ch "'")].
Definition value_set : cset := mkSet true [CSpace; CChar DQ; CChar (ch "'")].
Definition host_head_set : cset :=
  mkSet false [CRange (ch "a") (ch "z"); CRange (ch "A") (ch "Z");
               CRange (ch "0") (ch "9")].
Definition host_tail_set : cset :=
  mkSet false [CWord; CChar (ch "."); CChar (ch "-"); CChar (ch ":")].

Definition reward_re : regex :=
  lits (codes "rew_") (Repeat hex_set 32 None Nil).

Definition gateway_value : regex :=
  NotAhead (lits (codes "${") Nil) (Repeat value_set 8 None Nil).

Definition gateway_re : regex :=
  lits (codes "OPENCLAW_GATEWAY_TOKEN")
    (Repeat space_set 0 None
      (Lit (ch "=")
        (Repeat space_set 0 None
          (Repeat quote_set 0 (Some 1%nat) gateway_value)))).

Definition websocket_host : regex :=
  NotAhead (lits (codes "localhost") Nil)
    (NotAhead (lits (codes "127.0.0.1") Nil)
      (NotAhead (lits (codes "0.0.0.0") Nil)
        (One host_head_set (Repeat host_tail_set 1 None Nil)))).

Definition websocket_re : regex :=
  lits (codes "ws")
    (Repeat (single (ch "s")) 0 (Some 1%nat)
      (lits (codes "://") websocket_host)).

Definition castle : Detector :=
  mkDetector "Castle/OpenClaw Secret" [reward_re; gateway_re; websocket_re].

(** Positions of the rules in the denylist. *)
Definition reward_rule : nat := 0.
Definition gateway_rule : nat := 1.
Definition websocket_rule : nat := 2.

(** ** Character categories of a [str] pattern *)

(** Tables that hold nothing beyond ASCII: enough to run the detector on
    ASCII text, where the tables are not consulted. *)
Definition ascii_only : char -> bool := fun _ => false.

Section Detector.

(** The patterns are [str] patterns compiled without flags, so [\s] and
    [\w] follow the Unicode database of the interpreter.  Its tables
    beyond ASCII are not part of the plugin: they are taken as they
    come. *)
Variable uni_isspace : char -> bool.
Variable uni_isalnum : char -> bool.

Definition isspace (c : char) : bool :=
  if c <? 128 then ascii_isspace c else uni_isspace c.

Definition isalnum (c : char) : bool :=
  if c <? 128 then ascii_isalnum c else uni_isalnum c.

(** [\w]: alphanumeric or the underscore. *)
Definition isword (c : char) : bool := isalnum c || (c =? 95).

(** Membership of a character in a set. *)
Definition item_has (i : cset_item) (c : char) : bool :=
  match i with
  | CChar x => c =? x
  | CRange lo hi => (lo <=? c) && (c <=? hi)
  | CSpace => isspace c
  | CWord => isword c
  end.

Definition in_cset (cs : cset) (c : char) : bool :=
  xorb (negated cs) (existsb (fun i => item_has i c) (items cs)).

(** ** The backtracking matcher *)

(** The upper bound of a repeat still allows one more character. *)
Definition can_more (hi : option nat) : bool :=
  match hi with
  | None => true
  | Some h => negb (Nat.eqb h 0)
  end.

(** Greedy repeat of a one-character test [p], between [lo] and [hi]
    times, then the rest of the pattern [k].  It takes a character while
    it can; when what follows fails it gives the last character back and
    tries again, down to [lo] characters.  The result counts the
    characters consumed by the repeat and by [k]. *)
Fixpoint rep (p : char -> bool) (lo : nat) (hi : option nat)
    (k : text -> option nat) (s : text) : option nat :=
  let stop := match lo with O => k s | S _ => None end in
  match s with
  | [] => stop
  | c :: t =>
      if p c && can_more hi then
        match rep p (Nat.pred lo) (option_map Nat.pred hi) k t with
        | Some n => Some (S n)
        | None => stop
        end
      else stop
  end.

(** [bt r s]: the match of [r] at the start of [s] that the backtracking
    engine returns, as the number of characters it spans. *)
Fixpoint bt (r : regex) (s : text) : option nat :=
  match r with
  | Nil => Some O
  | Lit c r' =>
      match s with
      | x :: t => if x =? c then option_map S (bt r' t) else None
      | [] => None
      end
  | One cs r' =>
      match s with
      | x :: t => if in_cset cs x then option_map S (bt r' t) else None
      | [] => None
      end
  | Repeat cs lo hi r' => rep (in_cset cs) lo hi (bt r') s
  | NotAhead q r' =>
      match bt q s with
      | Some _ => None
      | None => bt r' s
      end
  end.

(** ** Scanning *)

(** The spans [(start, stop)] of the successive matches of [r], from left
    to right: [s] is what is left of the text from offset [pos] on, and
    [skip] counts the characters still covered by the previous match.
    The search goes on where the previous match ended.  An empty match
    is reported and the search moves one character on; none of the
    three patterns has one ([denylist_NonEmpty]). *)
Fixpoint finditer (r : regex) (skip pos : nat) (s : text) : list (nat * nat) :=
  match s with
  | [] =>
      match skip, bt r [] with
      | O, Some n => [(pos, (pos + n)%nat)]
      | _, _ => []
      end
  | _ :: t =>
      match skip with
      | S k => finditer r k (S pos) t
      | O =>
          match bt r s with
          | Some n => (pos, (pos + n)%nat) :: finditer r (Nat.pred n) (S pos) t
          | None => finditer r O (S pos) t
          end
      end
  end.

Definition spans (r : regex) (s : text) : list (nat * nat) := finditer r 0 0 s.

(** [s[a:b]]. *)
Definition slice (s : text) (a b : nat) : text := firstn (b - a) (skipn a s).

(** [findall]: the matched substrings, in order. *)
Definition findall (r : regex) (s : text) : list text :=
  map (fun ab => slice s (fst ab) (snd ab)) (spans r s).

(** ** Findings *)

Record Finding : Type := mkFinding {
  f_type : string;      (* the detector's secret_type *)
  f_rule : nat;         (* position of the pattern in the denylist *)
  f_start : nat;        (* offsets of the match in the scanned text *)
  f_stop : nat;
  f_text : text         (* the matched substring *)
}.

Definition finding_of (ty : string) (i : nat) (s : text) (ab : nat * nat) : Finding :=
  mkFinding ty i (fst ab) (snd ab) (slice s (fst ab) (snd ab)).

(** [for regex in self.denylist: for match in regex.findall(string)]. *)
Fixpoint scan_rules (ty : string) (i : nat) (rs : list regex) (s : text)
    : list Finding :=
  match rs with
  | [] => []
  | r :: rs' => map (finding_of ty i s) (spans r s) ++ scan_rules ty (S i) rs' s
  end.

Definition analyze_string (d : Detector) (s : text) : list Finding :=
  scan_rules (secret_type d) 0 (denylist d) s.

(** Importing the module, then scanning: a text can be scanned only with
    the class the import produced. *)
Definition scan (s : text) : result (list Finding) :=
  bind CastleOpenClawDetector (fun d => Ok (analyze_string d s)).

(** ** What a pattern matches *)

Local Open Scope nat_scope.

(** [j] repetitions respect the upper bound [hi]. *)
Definition within (hi : option nat) (j : nat) : Prop :=
  match hi with
  | None => True
  | Some h => j <= h
  end.

(** [j] characters at the start of [s] can be taken by a repeat of [p]
    bounded by [lo] and [hi]. *)
Definition valid_run (p : char -> bool) (lo : nat) (hi : option nat)
    (s : text) (j : nat) : Prop :=
  lo <= j /\ within hi j /\ j <= length s /\ forallb p (firstn j s) = true.

(** [Matches r s n]: the pattern [r] matches the first [n] characters of
    [s], whichever choices the repeats make. *)
Fixpoint Matches (r : regex) (s : text) (n : nat) : Prop :=
  match r with
  | Nil => n = 0
  | Lit c r' => exists t m, s = c :: t /\ Matches r' t m /\ n = S m
  | One cs r' =>
      exists x t m, s = x :: t /\ in_cset cs x = true /\ Matches r' t m /\ n = S m
  | Repeat cs lo hi r' =>
      exists j m, valid_run (in_cset cs) lo hi s j /\
                  Matches r' (skipn j s) m /\ n = j + m
  | NotAhead q r' => (forall m, ~ Matches q s m) /\ Matches r' s n
  end.

(** A pattern all of whose matches are found by the engine as the longest
    one, and a pattern that needs at least one character. *)
Definition Longest (r : regex) : Prop :=
  forall s n m, bt r s = Some n -> Matches r s m -> m <= n.

Definition NonEmpty (r : regex) : Prop :=
  forall s, ~ Matches r s 0.

(** Every match of [r] starts with a character outside [p]. *)
Definition StartsOutside (p : char -> bool) (r : regex) : Prop :=
  forall s m, Matches r s m -> exists c t, s = c :: t /\ p c = false.

(** The spans of a left-to-right scan from offset [from]: each is a match,
    no match starts between the previous span and it, no match from its
    start is longer, and the next span starts at or after its end. *)
Inductive LeftmostLongest (r : regex) (s : text) : nat -> list (nat * nat) -> Prop :=
| LL_done (from : nat) :
    (forall i m, from <= i <= length s -> ~ Matches r (skipn i s) m) ->
    LeftmostLongest r s from []
| LL_span (from a b : nat) (rest : list (nat * nat)) :
    from <= a -> a < b -> b <= length s ->
    (forall i m, from <= i < a -> ~ Matches r (skipn i s) m) ->
    Matches r (skipn a s) (b - a) ->
    (forall m, Matches r (skipn a s) m -> a + m <= b) ->
    LeftmostLongest r s b rest ->
    LeftmostLongest r s from ((a, b) :: rest).

(** The span [x] ends before the span [y] starts. *)
Definition disjoint_spans (x y : nat * nat) : Prop := snd x <= fst y.

(** ** Shapes of text *)

(** [s] starts with the characters of [pre]. *)
Fixpoint starts_with (pre s : text) : bool :=
  match pre, s with
  | [], _ => true
  | c :: pre', x :: t => (x =? c)%N && starts_with pre' t
  | _ :: _, [] => false
  end.

(** A run of [p] cannot go on into [s]: [s] is empty or starts outside
    [p]. *)
Definition stops (p : char -> bool) (s : text) : Prop :=
  match s with
  | [] => True
  | c :: _ => p c = false
  end.

(** Lowercase hexadecimal digits, and the set of the reward pattern. *)
Definition lower_hex (c : char) : bool :=
  ((ch "0" <=? c) && (c <=? ch "9") || (ch "a" <=? c) && (c <=? ch "f"))%N.

(** The letters of hexadecimal digits, in upper case. *)
Definition upper_letter (c : char) : bool := ((ch "A" <=? c) && (c <=? ch "F"))%N.

(** Hexadecimal digits written in upper case. *)
Definition upper_hex (c : char) : bool := ascii_isdigit c || upper_letter c.

(** What the value of the assignment is made of: neither whitespace nor
    a quote. *)
Definition value_char (c : char) : bool :=
  negb (isspace c) && negb (c =? DQ)%N && negb (c =? ch "'")%N.

(** The two schemes of the WebSocket pattern, and the three literals its
    lookaheads exclude. *)
Definition schemes : list text := [codes "ws"; codes "wss"].

Definition loopback : list text :=
  [codes "localhost"; codes "127.0.0.1"; codes "0.0.0.0"].

(** What may follow the host of a URL: nothing, a port, a path, a query
    or a fragment. *)
Definition host_ends (rest : text) : Prop :=
  match rest with
  | [] => True
  | c :: _ => c = ch ":" \/ c = ch "/" \/ c = ch "?" \/ c = ch "#"
  end.

(** The characters the pattern accepts after the first one of a host. *)
Definition host_char (c : char) : bool :=
  isword c || (c =? ch ".")%N || (c =? ch "-")%N || (c =? ch ":")%N.

(** A finding lies inside the text and carries the characters of its
    span. *)
Definition well_placed (s : text) (f : Finding) : Prop :=
  f_start f < f_stop f <= length s /\
  f_text f = slice s (f_start f) (f_stop f).

(** A host as the pattern wants it: an ASCII letter or digit, then at
    least one more host character. *)
Definition host_shape (s : text) : bool :=
  match s with
  | c :: d :: _ => ascii_isalnum c && host_char d
  | _ => false
  end.

(** The key of the gateway-token assignment, and what may stand between
    the equals sign (and its whitespace) and the value: nothing or one
    quote. *)
Definition gateway_key : text := codes "OPENCLAW_GATEWAY_TOKEN".

Definition opening_quotes : list text := [[]; [DQ]; [ch "'"]].

(** The order in which a run yields its findings: by position of the
    rule in the denylist, then from left to right without overlap. *)
Definition finding_before (f g : Finding) : Prop :=
  f_rule f < f_rule g \/ (f_rule f = f_rule g /\ f_stop f <= f_start g).

(** The shortest text each rule can match: [rew_] and 32 digits; the key,
    the equals sign and 8 characters; [ws://] and two characters. *)
Definition shortest_match (rule : nat) : nat :=
  match rule with
  | 0 => 36
  | 1 => 31
  | _ => 7
  end.

(** ** The engine against the declarative reading *)

Lemma within_pred (hi : option nat) (j : nat) :
  can_more hi = true -> within (option_map Nat.pred hi) j -> within hi (S j).
Proof.
  destruct hi as [h|]; simpl; auto.
  destruct h; simpl; [discriminate | lia].
Qed.

Lemma within_succ (hi : option nat) (j : nat) :
  within hi (S j) -> can_more hi = true /\ within (option_map Nat.pred hi) j.
Proof.
  destruct hi as [h|]; simpl; auto.
  destruct h; simpl; [lia | intros; split; [reflexivity | lia]].
Qed.

Lemma valid_run_zero p lo hi s j :
  valid_run p lo hi s j -> j = 0 -> lo = 0.
Proof. intros (Hlo & _) ->. lia. Qed.

Lemma valid_run_cons p lo hi c t j :
  valid_run p lo hi (c :: t) (S j) <->
  p c = true /\ can_more hi = true /\
  valid_run p (Nat.pred lo) (option_map Nat.pred hi) t j.
Proof.
  unfold valid_run; simpl. rewrite andb_true_iff. split.
  - intros (Hlo & Hhi & Hlen & Hc & Hall).
    apply within_succ in Hhi. destruct Hhi as [Hm Hhi].
    repeat split; auto; lia.
  - intros (Hc & Hm & Hlo & Hhi & Hlen & Hall).
    repeat split; auto; try lia. now apply within_pred.
Qed.

(** A repeat that fails has tried every run length. *)
Lemma rep_none p k s : forall lo hi,
  rep p lo hi k s = None ->
  forall j, valid_run p lo hi s j -> k (skipn j s) = None.
Proof.
  induction s as [|c t IH]; intros lo hi H j Hv; simpl in H.
  - assert (j = 0) by (destruct Hv as (_ & _ & Hlen & _); simpl in Hlen; lia).
    subst j. rewrite (valid_run_zero _ _ _ _ _ Hv eq_refl) in H. exact H.
  - destruct j as [|j].
    + rewrite (valid_run_zero _ _ _ _ _ Hv eq_refl) in H. simpl.
      destruct (p c && can_more hi); [|exact H].
      destruct (rep p (Nat.pred 0) (option_map Nat.pred hi) k t);
        [discriminate | exact H].
    + apply valid_run_cons in Hv. destruct Hv as (Hp & Hm & Hv).
      rewrite Hp, Hm in H. simpl in H.
      destruct (rep p (Nat.pred lo) (option_map Nat.pred hi) k t) eqn:Hr;
        [discriminate|].
      simpl. exact (IH _ _ Hr _ Hv).
Qed.

Lemma valid_run_here p hi s : valid_run p 0 hi s 0.
Proof.
  unfold valid_run. simpl. repeat split; try lia.
  destruct hi; simpl; lia.
Qed.

(** The repeat returns the first success in the order the engine tries
    the run lengths: longest first. *)
Lemma rep_first p k s : forall lo hi n,
  rep p lo hi k s = Some n ->
  exists j m, valid_run p lo hi s j /\ k (skipn j s) = Some m /\ n = j + m /\
              forall j', j < j' -> valid_run p lo hi s j' -> k (skipn j' s) = None.
Proof.
  induction s as [|c t IH]; intros lo hi n H; simpl in H.
  - destruct lo; [|discriminate].
    exists 0, n. split; [apply valid_run_here|]. split; [exact H|].
    split; [reflexivity|].
    intros j' Hj (_ & _ & Hlen & _). simpl in Hlen. lia.
  - assert (Hstop : (match lo with 0 => k (c :: t) | S _ => None end) = Some n ->
                    (forall j', 0 < j' -> valid_run p lo hi (c :: t) j' ->
                                k (skipn j' (c :: t)) = None) ->
                    exists j m, valid_run p lo hi (c :: t) j /\
                      k (skipn j (c :: t)) = Some m /\ n = j + m /\
                      forall j', j < j' -> valid_run p lo hi (c :: t) j' ->
                                 k (skipn j' (c :: t)) = None).
    { intros Hk Hnone. destruct lo; [|discriminate].
      exists 0, n. split; [apply valid_run_here|]. split; [exact Hk|].
      split; [reflexivity | exact Hnone]. }
    destruct (p c && can_more hi) eqn:Hpc.
    + apply andb_true_iff in Hpc. destruct Hpc as [Hp Hm].
      destruct (rep p (Nat.pred lo) (option_map Nat.pred hi) k t) as [n'|] eqn:Hr.
      * injection H as <-.
        destruct (IH _ _ _ Hr) as (j & m & Hv & Hk & -> & Hmax).
        exists (S j), m. split; [apply valid_run_cons; auto|].
        split; [exact Hk|]. split; [reflexivity|].
        intros [|j'] Hlt Hv'; [lia|].
        apply valid_run_cons in Hv'. destruct Hv' as (_ & _ & Hv').
        simpl. apply Hmax; [lia | exact Hv'].
      * apply Hstop; [exact H|].
        intros [|j'] Hlt Hv'; [lia|].
        apply valid_run_cons in Hv'. destruct Hv' as (_ & _ & Hv').
        simpl. exact (rep_none _ _ _ _ _ Hr _ Hv').
    + apply Hstop; [exact H|].
      intros [|j'] Hlt Hv'; [lia|].
      apply valid_run_cons in Hv'. destruct Hv' as (Hp & Hm & _).
      rewrite Hp, Hm in Hpc. discriminate.
Qed.

(** The engine returns a match, and returns one whenever there is one. *)
Lemma bt_Matches (r : regex) :
  (forall s n, bt r s = Some n -> Matches r s n) /\
  (forall s n, Matches r s n -> bt r s <> None).
Proof.
  induction r as [|c r IH|cs r IH|cs lo hi r IH|q IHq r IH]; simpl.
  - split; [intros s n [= <-]; reflexivity | discriminate].
  - destruct IH as [Hs Hc]. split.
    + intros [|x t] n H; [discriminate|].
      destruct (N.eqb_spec x c) as [->|]; [|discriminate].
      destruct (bt r t) as [m|] eqn:Hb; [|discriminate].
      injection H as <-. exists t, m. auto.
    + intros s n (t & m & -> & Hm & ->).
      rewrite N.eqb_refl. specialize (Hc _ _ Hm).
      destruct (bt r t); [discriminate | congruence].
  - destruct IH as [Hs Hc]. split.
    + intros [|x t] n H; [discriminate|].
      destruct (in_cset cs x) eqn:Hx; [|discriminate].
      destruct (bt r t) as [m|] eqn:Hb; [|discriminate].
      injection H as <-. exists x, t, m. auto.
    + intros s n (x & t & m & -> & Hx & Hm & ->).
      rewrite Hx. specialize (Hc _ _ Hm).
      destruct (bt r t); [discriminate | congruence].
  - destruct IH as [Hs Hc]. split.
    + intros s n H. apply rep_first in H.
      destruct H as (j & m & Hv & Hk & -> & _).
      exists j, m. auto.
    + intros s n (j & m & Hv & Hm & ->) Hnone.
      apply (Hc _ _ Hm). exact (rep_none _ _ _ _ _ Hnone _ Hv).
  - destruct IHq as [Hqs Hqc], IH as [Hs Hc]. split.
    + intros s n H. destruct (bt q s) as [m|] eqn:Hq; [discriminate|].
      split; [|auto].
      intros m Hm. exact (Hqc _ _ Hm Hq).
    + intros s n [Hno Hm].
      destruct (bt q s) as [m|] eqn:Hq; [|eauto].
      exfalso. exact (Hno _ (Hqs _ _ Hq)).
Qed.

Lemma bt_sound r s n : bt r s = Some n -> Matches r s n.
Proof. apply bt_Matches. Qed.

Lemma bt_complete r s n : Matches r s n -> bt r s <> None.
Proof. apply bt_Matches. Qed.

Lemma bt_none r s : bt r s = None -> forall n, ~ Matches r s n.
Proof. intros H n Hm. exact (bt_complete _ _ _ Hm H). Qed.

Lemma Matches_bound r : forall s n, Matches r s n -> n <= length s.
Proof.
  induction r as [|c r IH|cs r IH|cs lo hi r IH|q _ r IH]; simpl; intros s n.
  - lia.
  - intros (t & m & -> & Hm & ->). simpl. apply IH in Hm. lia.
  - intros (x & t & m & -> & _ & Hm & ->). simpl. apply IH in Hm. lia.
  - intros (j & m & (_ & _ & Hlen & _) & Hm & ->).
    apply IH in Hm. rewrite length_skipn in Hm. lia.
  - intros [_ Hm]. auto.
Qed.

(** ** Longest matches *)

Lemma Longest_Nil : Longest Nil.
Proof. intros s n m _ Hm. simpl in Hm. lia. Qed.

Lemma Longest_Lit c r : Longest r -> Longest (Lit c r).
Proof.
  intros L s n m Hb (t & m' & -> & Hm & ->). simpl in Hb.
  rewrite N.eqb_refl in Hb.
  destruct (bt r t) as [n'|] eqn:Hr; [|discriminate].
  injection Hb as <-. specialize (L _ _ _ Hr Hm). lia.
Qed.

Lemma Longest_lits cs r : Longest r -> Longest (lits cs r).
Proof. induction cs; simpl; auto using Longest_Lit. Qed.

Lemma Longest_One cs r : Longest r -> Longest (One cs r).
Proof.
  intros L s n m Hb (x & t & m' & -> & Hx & Hm & ->). simpl in Hb.
  rewrite Hx in Hb.
  destruct (bt r t) as [n'|] eqn:Hr; [|discriminate].
  injection Hb as <-. specialize (L _ _ _ Hr Hm). lia.
Qed.

Lemma Longest_NotAhead q r : Longest r -> Longest (NotAhead q r).
Proof.
  intros L s n m Hb [_ Hm]. simpl in Hb.
  destruct (bt q s); [discriminate|]. eauto.
Qed.

(** A repeat that ends the pattern takes the longest run. *)
Lemma Longest_Repeat_last cs lo hi : Longest (Repeat cs lo hi Nil).
Proof.
  intros s n m Hb (j' & m' & Hv' & Hm' & ->). simpl in Hb, Hm'. subst m'.
  apply rep_first in Hb. destruct Hb as (j & m & Hv & Hk & -> & Hmax).
  destruct (Nat.le_gt_cases j' j) as [Hle|Hgt]; [lia|].
  specialize (Hmax _ Hgt Hv'). discriminate.
Qed.

Lemma forallb_firstn_nth (p : char -> bool) (s : text) : forall j i c t,
  forallb p (firstn j s) = true -> i < j -> skipn i s = c :: t -> p c = true.
Proof.
  induction s as [|x u IH]; intros j i c t Hall Hlt Hskip.
  - rewrite skipn_nil in Hskip. discriminate.
  - destruct j as [|j]; [lia|]. simpl in Hall.
    apply andb_true_iff in Hall. destruct Hall as [Hx Hall].
    destruct i as [|i]; simpl in Hskip.
    + injection Hskip as <- _. exact Hx.
    + apply (IH j i c t); auto. lia.
Qed.

(** Two runs of [p], each followed by a character outside [p], have the
    same length. *)
Lemma run_unique (p : char -> bool) (s : text) j j' c t c' t' :
  forallb p (firstn j s) = true -> forallb p (firstn j' s) = true ->
  skipn j s = c :: t -> p c = false ->
  skipn j' s = c' :: t' -> p c' = false ->
  j = j'.
Proof.
  intros Hj Hj' Hs Hc Hs' Hc'.
  destruct (Nat.lt_trichotomy j j') as [Hlt|[Heq|Hgt]]; [|exact Heq|].
  - rewrite (forallb_firstn_nth p s j' j c t Hj' Hlt Hs) in Hc. discriminate.
  - rewrite (forallb_firstn_nth p s j j' c' t' Hj Hgt Hs') in Hc'. discriminate.
Qed.

(** A repeat followed by something that cannot start inside the repeated
    set leaves no choice on the run. *)
Lemma Longest_Repeat_guard cs lo hi r :
  StartsOutside (in_cset cs) r -> Longest r -> Longest (Repeat cs lo hi r).
Proof.
  intros G L s n m Hb (j' & m' & Hv' & Hm' & ->). simpl in Hb.
  apply rep_first in Hb. destruct Hb as (j & m & Hv & Hk & -> & _).
  destruct (G _ _ (bt_sound _ _ _ Hk)) as (c & t & Hs & Hc).
  destruct (G _ _ Hm') as (c' & t' & Hs' & Hc').
  assert (j = j').
  { destruct Hv as (_ & _ & _ & Hall), Hv' as (_ & _ & _ & Hall').
    eapply run_unique; eauto. }
  subst j'. specialize (L _ _ _ Hk Hm'). lia.
Qed.

Lemma StartsOutside_Lit p c r : p c = false -> StartsOutside p (Lit c r).
Proof. intros Hc s m (t & m' & -> & _). eauto. Qed.

Lemma StartsOutside_One p cs r :
  (forall x, in_cset cs x = true -> p x = false) -> StartsOutside p (One cs r).
Proof. intros H s m (x & t & m' & -> & Hx & _). eauto. Qed.

Lemma StartsOutside_NotAhead p q r :
  StartsOutside p r -> StartsOutside p (NotAhead q r).
Proof. intros H s m [_ Hm]. eauto. Qed.

Lemma StartsOutside_Repeat p cs lo hi r :
  (forall x, in_cset cs x = true -> p x = false) ->
  0 < lo \/ StartsOutside p r ->
  StartsOutside p (Repeat cs lo hi r).
Proof.
  intros Hd Hr s m (j & m' & (Hlo & _ & Hlen & Hall) & Hm & _).
  destruct j as [|j].
  - destruct Hr as [Hpos|Hr]; [lia|]. exact (Hr _ _ Hm).
  - destruct s as [|x t]; [simpl in Hlen; lia|].
    simpl in Hall. apply andb_true_iff in Hall. destruct Hall as [Hx _].
    eauto.
Qed.

Lemma NonEmpty_Lit c r : NonEmpty (Lit c r).
Proof. intros s (t & m & _ & _ & H). discriminate. Qed.

(** ** The scan *)

Lemma skipn_tail {A} (l : list A) : forall i x t,
  skipn i l = x :: t -> skipn (S i) l = t.
Proof.
  induction l as [|y u IH]; intros i x t H.
  - rewrite skipn_nil in H. discriminate.
  - destruct i as [|i]; simpl in *.
    + now injection H.
    + destruct u; [rewrite skipn_nil in H; discriminate|]. exact (IH _ _ _ H).
Qed.

Lemma LeftmostLongest_step r s from l :
  (forall m, ~ Matches r (skipn from s) m) ->
  LeftmostLongest r s (S from) l -> LeftmostLongest r s from l.
Proof.
  intros Hno H. inversion H; subst.
  - apply LL_done. intros i m Hi.
    destruct (Nat.eq_dec i from) as [->|]; [apply Hno|].
    apply H0. lia.
  - apply LL_span; auto; try lia.
    intros i m Hi.
    destruct (Nat.eq_dec i from) as [->|]; [apply Hno|].
    apply H3. lia.
Qed.

Lemma finditer_LeftmostLongest r txt :
  Longest r -> NonEmpty r ->
  forall s skip pos,
    skipn pos txt = s -> pos + length s = length txt -> skip <= length s ->
    LeftmostLongest r txt (pos + skip) (finditer r skip pos s).
Proof.
  intros L NE. induction s as [|c t IH]; intros skip pos Hs Hlen Hskip.
  - simpl in *. assert (skip = 0) by lia. subst skip.
    assert (Hnone : bt r [] = None).
    { destruct (bt r []) as [n|] eqn:Hb; [|reflexivity].
      pose proof (Matches_bound _ _ _ (bt_sound _ _ _ Hb)) as Hn.
      simpl in Hn. assert (n = 0) by lia. subst n.
      destruct (NE _ (bt_sound _ _ _ Hb)). }
    rewrite Hnone. apply LL_done. intros i m Hi.
    assert (i = length txt) by lia. subst i.
    rewrite skipn_all. exact (bt_none _ _ Hnone m).
  - pose proof (skipn_tail _ _ _ _ Hs) as Ht. simpl in Hlen, Hskip.
    simpl. destruct skip as [|k].
    + destruct (bt r (c :: t)) as [n|] eqn:Hb.
      * pose proof (bt_sound _ _ _ Hb) as Hm.
        pose proof (Matches_bound _ _ _ Hm) as Hn. simpl in Hn.
        assert (n <> 0) by (intros ->; exact (NE _ Hm)).
        rewrite Nat.add_0_r. apply LL_span; try lia.
        -- rewrite Hs. replace (pos + n - pos) with n by lia. exact Hm.
        -- rewrite Hs. intros m Hm'. specialize (L _ _ _ Hb Hm'). lia.
        -- replace (pos + n) with (S pos + Nat.pred n) by lia.
           apply IH; auto; lia.
      * rewrite Nat.add_0_r. apply LeftmostLongest_step.
        -- rewrite Hs. exact (bt_none _ _ Hb).
        -- specialize (IH 0 (S pos) Ht). rewrite Nat.add_0_r in IH.
           apply IH; lia.
    + replace (pos + S k) with (S pos + k) by lia. apply IH; auto; lia.
Qed.

Lemma spans_LeftmostLongest r s :
  Longest r -> NonEmpty r -> LeftmostLongest r s 0 (spans r s).
Proof.
  intros L NE. unfold spans.
  apply (finditer_LeftmostLongest r s L NE s 0 0); simpl; auto; lia.
Qed.

Lemma LeftmostLongest_bounds r s from l :
  LeftmostLongest r s from l ->
  Forall (fun ab => from <= fst ab /\ fst ab < snd ab /\ snd ab <= length s) l.
Proof.
  induction 1 as [|from a b rest Hfa Hab Hb _ _ _ _ IH]; constructor.
  - simpl. lia.
  - eapply Forall_impl; [|exact IH]. simpl. intros [x y]; simpl. lia.
Qed.

Lemma LeftmostLongest_disjoint r s from l :
  LeftmostLongest r s from l -> ForallOrdPairs disjoint_spans l.
Proof.
  induction 1 as [|from a b rest _ _ _ _ _ _ Hrest IH]; constructor; auto.
  apply LeftmostLongest_bounds in Hrest.
  eapply Forall_impl; [|exact Hrest].
  unfold disjoint_spans. simpl. intros [x y]; simpl. lia.
Qed.

Lemma LeftmostLongest_unique r s : forall from l1 l2,
  LeftmostLongest r s from l1 -> LeftmostLongest r s from l2 -> l1 = l2.
Proof.
  intros from l1 l2 H1. revert l2.
  induction H1 as [from Hno|from a b rest Hfa Hab Hb Hleft Hm Hlong _ IH];
    intros l2 H2; inversion H2 as [? Hno'|? a' b' rest' Hfa' Hab' Hb' Hleft' Hm' Hlong' Hrest']; subst.
  - reflexivity.
  - exfalso. apply (Hno a' (b' - a')); [lia | exact Hm'].
  - exfalso. apply (Hno' a (b - a)); [lia | exact Hm].
  - assert (a = a').
    { destruct (Nat.lt_trichotomy a a') as [Hlt|[Heq|Hgt]]; [|exact Heq|].
      - exfalso. apply (Hleft' a (b - a)); [lia | exact Hm].
      - exfalso. apply (Hleft a' (b' - a')); [lia | exact Hm']. }
    subst a'.
    assert (b = b').
    { specialize (Hlong _ Hm'). specialize (Hlong' _ Hm). lia. }
    subst b'. f_equal. apply IH. exact Hrest'.
Qed.

(** ** The three patterns *)

Lemma quote_not_space x :
  in_cset quote_set x = true -> in_cset space_set x = false.
Proof.
  unfold in_cset, quote_set, space_set; simpl.
  rewrite !orb_false_r, orb_true_iff, !N.eqb_eq.
  intros [->| ->]; reflexivity.
Qed.

Lemma value_not_space x :
  in_cset value_set x = true -> in_cset space_set x = false.
Proof.
  unfold in_cset, value_set, space_set; simpl.
  destruct (isspace x); simpl; [discriminate | reflexivity].
Qed.

Lemma value_not_quote x :
  in_cset value_set x = true -> in_cset quote_set x = false.
Proof.
  unfold in_cset, value_set, quote_set; simpl.
  destruct (isspace x), (x =? DQ)%N, (x =? 39)%N; simpl;
    try discriminate; reflexivity.
Qed.

Lemma reward_Longest : Longest reward_re.
Proof. apply Longest_lits, Longest_Repeat_last. Qed.

Lemma gateway_value_outside p :
  (forall x, in_cset value_set x = true -> p x = false) ->
  StartsOutside p gateway_value.
Proof.
  intros H. apply StartsOutside_NotAhead, StartsOutside_Repeat; [exact H|].
  left. lia.
Qed.

Lemma gateway_Longest : Longest gateway_re.
Proof.
  apply Longest_lits, Longest_Repeat_guard;
    [apply StartsOutside_Lit; reflexivity|].
  apply Longest_Lit, Longest_Repeat_guard.
  - apply StartsOutside_Repeat; [exact quote_not_space|].
    right. apply gateway_value_outside, value_not_space.
  - apply Longest_Repeat_guard;
      [apply gateway_value_outside, value_not_quote|].
    apply Longest_NotAhead, Longest_Repeat_last.
Qed.

Lemma websocket_Longest : Longest websocket_re.
Proof.
  apply Longest_lits, Longest_Repeat_guard;
    [apply StartsOutside_Lit; reflexivity|].
  apply Longest_lits.
  do 3 apply Longest_NotAhead.
  apply Longest_One, Longest_Repeat_last.
Qed.

Lemma denylist_Longest r : In r (denylist castle) -> Longest r.
Proof.
  simpl. intros [<-|[<-|[<-|[]]]];
    [apply reward_Longest | apply gateway_Longest | apply websocket_Longest].
Qed.

Lemma denylist_NonEmpty r : In r (denylist castle) -> NonEmpty r.
Proof. simpl. intros [<-|[<-|[<-|[]]]]; apply NonEmpty_Lit. Qed.

(** ** Running the engine on texts with a known shape *)

Lemma bt_lits pre r : forall s,
  bt (lits pre r) s =
  if starts_with pre s
  then option_map (Nat.add (length pre)) (bt r (skipn (length pre) s))
  else None.
Proof.
  induction pre as [|c pre IH]; intros s; simpl.
  - destruct (bt r s); reflexivity.
  - destruct s as [|x t]; [reflexivity|].
    destruct (x =? c)%N; [|reflexivity]. simpl. rewrite IH.
    destruct (starts_with pre t); [|reflexivity].
    destruct (bt r (skipn (length pre) t)); reflexivity.
Qed.

Lemma starts_with_app pre t : starts_with pre (pre ++ t) = true.
Proof. induction pre; simpl; [|rewrite N.eqb_refl]; auto. Qed.

Lemma bt_lits_app pre r t :
  bt (lits pre r) (pre ++ t) = option_map (Nat.add (length pre)) (bt r t).
Proof.
  rewrite bt_lits, starts_with_app, skipn_app, skipn_all, Nat.sub_diag.
  reflexivity.
Qed.

Lemma rep_stop p hi k s : stops p s -> rep p 0 hi k s = k s.
Proof.
  destruct s as [|c t]; simpl; [reflexivity|].
  intros ->. reflexivity.
Qed.

(** A repeat that ends the pattern, on a run [h] of the set that stops
    at [rest]. *)
Lemma bt_Repeat_last_run cs h rest : forall lo,
  forallb (in_cset cs) h = true -> stops (in_cset cs) rest ->
  bt (Repeat cs lo None Nil) (h ++ rest) =
  if Nat.leb lo (length h) then Some (length h) else None.
Proof.
  induction h as [|x h IH]; intros lo Hall Hstop; simpl in *.
  - destruct rest as [|c t]; simpl in *; [|rewrite Hstop]; destruct lo; reflexivity.
  - apply andb_true_iff in Hall. destruct Hall as [Hx Hall].
    rewrite Hx. simpl. specialize (IH (Nat.pred lo) Hall Hstop).
    simpl in IH. rewrite IH.
    destruct lo as [|lo]; simpl; [reflexivity|].
    destruct (Nat.leb lo (length h)) eqn:Hle; reflexivity.
Qed.

Lemma finditer_start r skip pos s :
  Forall (fun ab => pos <= fst ab) (finditer r skip pos s).
Proof.
  revert skip pos. induction s as [|c t IH]; intros skip pos; simpl.
  - destruct skip; [destruct (bt r [])|]; repeat constructor.
  - assert (Hw : forall k, Forall (fun ab => pos <= fst ab) (finditer r k (S pos) t)).
    { intros k. eapply Forall_impl; [|apply IH]. simpl. intros; lia. }
    destruct skip; [destruct (bt r (c :: t))|]; auto.
Qed.

Lemma finditer_covered r s : forall skip pos,
  length s <= skip -> bt r [] = None -> finditer r skip pos s = [].
Proof.
  induction s as [|c t IH]; intros skip pos Hlen Hnil; simpl in *.
  - rewrite Hnil. destruct skip; reflexivity.
  - destruct skip as [|k]; [lia|]. apply IH; [lia | exact Hnil].
Qed.

(** A pattern that starts with a literal finds nothing in a text without
    that character. *)
Lemma finditer_absent c r s : forall pos,
  ~ In c s -> finditer (Lit c r) 0 pos s = [].
Proof.
  induction s as [|x t IH]; intros pos Hin; [reflexivity|].
  cbn [finditer bt].
  destruct (N.eqb_spec x c) as [->|_]; [destruct Hin; left; reflexivity|].
  apply IH. intros H. apply Hin. right. exact H.
Qed.

Lemma forallb_absent (p : char -> bool) (c : char) (h : text) :
  forallb p h = true -> p c = false -> ~ In c h.
Proof.
  intros Hall Hc Hin. rewrite forallb_forall in Hall.
  rewrite (Hall _ Hin) in Hc. discriminate.
Qed.

(** The matched substrings of a run are those of [findall], pattern
    after pattern. *)
Lemma scan_rules_findall ty s : forall rs i,
  map f_text (scan_rules ty i rs s) = flat_map (fun r => findall r s) rs.
Proof.
  induction rs as [|r rs IH]; intros i; simpl; [reflexivity|].
  rewrite map_app, IH, map_map. reflexivity.
Qed.

Lemma analyze_string_findall d s :
  map f_text (analyze_string d s) = flat_map (fun r => findall r s) (denylist d).
Proof. apply scan_rules_findall. Qed.

(** The whole run of the detector, rule by rule. *)
Lemma analyze_castle s :
  analyze_string castle s =
  map (finding_of (secret_type castle) reward_rule s) (spans reward_re s) ++
  map (finding_of (secret_type castle) gateway_rule s) (spans gateway_re s) ++
  map (finding_of (secret_type castle) websocket_rule s) (spans websocket_re s).
Proof. unfold analyze_string. simpl. rewrite app_nil_r. reflexivity. Qed.

Lemma hex_set_lower_hex c : in_cset hex_set c = lower_hex c.
Proof.
  unfold in_cset, hex_set, lower_hex. simpl.
  rewrite orb_false_r. apply orb_comm.
Qed.

Lemma forallb_hex_set h :
  forallb lower_hex h = true -> forallb (in_cset hex_set) h = true.
Proof.
  induction h as [|c h IH]; simpl; [reflexivity|].
  rewrite hex_set_lower_hex, !andb_true_iff. intros [Hc Hh]. auto.
Qed.

(** [rew_] followed by a run of lowercase hexadecimal digits, and nothing
    else: the reward pattern finds the whole text when the run has 32
    digits or more, and nothing otherwise. *)
Lemma reward_spans_token h :
  forallb lower_hex h = true ->
  spans reward_re (codes "rew_" ++ h) =
  if Nat.leb 32 (length h) then [(0, 4 + length h)] else [].
Proof.
  intros Hh. unfold spans.
  assert (Hbt : bt reward_re (codes "rew_" ++ h) =
                if Nat.leb 32 (length h) then Some (4 + length h) else None).
  { unfold reward_re. rewrite bt_lits_app.
    rewrite <- (app_nil_r h) at 1.
    rewrite bt_Repeat_last_run; [|apply forallb_hex_set; exact Hh|exact I].
    destruct (Nat.leb 32 (length h)); reflexivity. }
  change (codes "rew_" ++ h) with (ch "r" :: (codes "ew_" ++ h)) in *.
  cbn [finditer]. rewrite Hbt.
  destruct (Nat.leb 32 (length h)).
  - f_equal. apply finditer_covered; [|reflexivity].
    rewrite length_app. simpl. lia.
  - change (codes "ew_" ++ h) with (ch "e" :: ch "w" :: ch "_" :: h).
    change reward_re with (Lit (ch "r") (lits (codes "ew_") (Repeat hex_set 32 None Nil))).
    apply finditer_absent. simpl.
    intros [H|[H|[H|H]]]; try discriminate.
    revert H. apply forallb_absent with (p := lower_hex); [exact Hh|reflexivity].
Qed.

(** The gateway and WebSocket patterns find nothing in such a text. *)
Lemma gateway_spans_token h :
  forallb lower_hex h = true -> spans gateway_re (codes "rew_" ++ h) = [].
Proof.
  intros Hh. unfold spans.
  change gateway_re with (Lit (ch "O") (lits (codes "PENCLAW_GATEWAY_TOKEN")
    (Repeat space_set 0 None
      (Lit (ch "=")
        (Repeat space_set 0 None
          (Repeat quote_set 0 (Some 1) gateway_value)))))).
  apply finditer_absent. simpl.
  intros [H|[H|[H|[H|H]]]]; try discriminate.
  revert H. apply forallb_absent with (p := lower_hex); [exact Hh|reflexivity].
Qed.

Lemma websocket_spans_token h :
  forallb lower_hex h = true -> spans websocket_re (codes "rew_" ++ h) = [].
Proof.
  intros Hh. unfold spans.
  change (finditer websocket_re 0 0 (codes "rew_" ++ h))
    with (finditer websocket_re 0 4 h).
  change websocket_re with (Lit (ch "w") (Lit (ch "s")
    (Repeat (single (ch "s")) 0 (Some 1) (lits (codes "://") websocket_host)))).
  apply finditer_absent.
  apply forallb_absent with (p := lower_hex); [exact Hh|reflexivity].
Qed.

Lemma reward_at_token h rest :
  forallb lower_hex h = true -> stops lower_hex rest ->
  bt reward_re (codes "rew_" ++ h ++ rest) =
  if Nat.leb 32 (length h) then Some (4 + length h) else None.
Proof.
  intros Hh Hrest. unfold reward_re. rewrite bt_lits_app.
  rewrite bt_Repeat_last_run; [|apply forallb_hex_set; exact Hh|].
  - destruct (Nat.leb 32 (length h)); reflexivity.
  - destruct rest; simpl in *; [exact I|].
    rewrite hex_set_lower_hex. exact Hrest.
Qed.

Lemma analyze_token h :
  forallb lower_hex h = true ->
  analyze_string castle (codes "rew_" ++ h) =
  if Nat.leb 32 (length h)
  then [mkFinding "Castle/OpenClaw Secret" reward_rule 0 (4 + length h)
          (codes "rew_" ++ h)]
  else [].
Proof.
  intros Hh. rewrite analyze_castle.
  rewrite reward_spans_token, gateway_spans_token, websocket_spans_token by exact Hh.
  destruct (Nat.leb 32 (length h)); [|reflexivity].
  cbn [map app secret_type castle]. unfold finding_of, slice.
  cbn [fst snd]. rewrite Nat.sub_0_r. cbn [skipn].
  rewrite firstn_all2; [reflexivity|].
  rewrite length_app. simpl. lia.
Qed.

Lemma compile_all_each ps : forall rs,
  compile_all ps = Ok rs -> Forall2 (fun p r => re_compile p = Ok r) ps rs.
Proof.
  induction ps as [|p ps IH]; simpl; intros rs H.
  - injection H as <-. constructor.
  - destruct (re_compile p) as [r|e] eqn:Hp; simpl in H; [|discriminate].
    destruct (compile_all ps) as [rs'|e] eqn:Hps; simpl in H; [|discriminate].
    injection H as <-. constructor; auto.
Qed.

Lemma CastleOpenClawDetector_compiled : CastleOpenClawDetector = Ok castle.
Proof. vm_compute. reflexivity. Qed.

Lemma scan_compiled s : scan s = Ok (analyze_string castle s).
Proof. unfold scan. rewrite CastleOpenClawDetector_compiled. reflexivity. Qed.

Lemma scan_rules_well_placed ty s : forall rs i,
  (forall r, In r rs -> Longest r /\ NonEmpty r) ->
  Forall (well_placed s) (scan_rules ty i rs s).
Proof.
  induction rs as [|r rs IH]; intros i Hrs; simpl; [constructor|].
  apply Forall_app. split.
  - destruct (Hrs r (or_introl eq_refl)) as [L NE].
    pose proof (LeftmostLongest_bounds _ _ _ _ (spans_LeftmostLongest r s L NE)) as Hb.
    apply Forall_map. eapply Forall_impl; [|exact Hb].
    intros [a b] (_ & Hab & Hlen). unfold well_placed. simpl in *.
    split; [lia | reflexivity].
  - apply IH. intros r' Hr'. apply Hrs. right. exact Hr'.
Qed.

(** ** The gateway-token assignment *)

Lemma value_set_value_char c : in_cset value_set c = value_char c.
Proof.
  unfold in_cset, value_set, value_char. simpl.
  destruct (isspace c), (c =? DQ)%N, (c =? 39)%N; reflexivity.
Qed.

Lemma forallb_value_set v :
  forallb value_char v = true -> forallb (in_cset value_set) v = true.
Proof.
  induction v as [|c v IH]; simpl; [reflexivity|].
  rewrite value_set_value_char, !andb_true_iff. intros [Hc Hv]. auto.
Qed.

Lemma starts_with_app_r pre : forall v rest,
  length pre <= length v -> starts_with pre (v ++ rest) = starts_with pre v.
Proof.
  induction pre as [|c pre IH]; intros v rest Hlen; [reflexivity|].
  destruct v as [|x v]; simpl in *; [lia|].
  rewrite IH by lia. reflexivity.
Qed.

Lemma bt_NotAhead_lits lit r s :
  bt (NotAhead (lits lit Nil) r) s = if starts_with lit s then None else bt r s.
Proof.
  cbn [bt]. rewrite bt_lits. destruct (starts_with lit s); reflexivity.
Qed.

Lemma spans_head r c t n :
  bt r (c :: t) = Some n -> spans r (c :: t) = (0, n) :: finditer r (Nat.pred n) 1 t.
Proof. intros H. unfold spans. cbn [finditer]. rewrite H. reflexivity. Qed.

(** The match of the gateway pattern at an assignment whose value [v] is
    written without whitespace or quote. *)
Lemma gateway_at_assignment v rest :
  forallb value_char v = true -> 8 <= length v -> stops value_char rest ->
  bt gateway_re (codes "OPENCLAW_GATEWAY_TOKEN=" ++ v ++ rest) =
  if starts_with (codes "${") v then None else Some (23 + length v).
Proof.
  intros Hv Hlen Hrest.
  change (codes "OPENCLAW_GATEWAY_TOKEN=" ++ v ++ rest)
    with (codes "OPENCLAW_GATEWAY_TOKEN" ++ ch "=" :: v ++ rest).
  unfold gateway_re. rewrite bt_lits_app.
  cbn [bt]. rewrite rep_stop by reflexivity.
  cbn [bt]. rewrite N.eqb_refl.
  destruct v as [|x v]; [simpl in Hlen; lia|].
  pose proof Hv as Hx. cbn [forallb] in Hx.
  apply andb_true_iff in Hx. destruct Hx as [Hx _].
  rewrite <- value_set_value_char in Hx.
  rewrite <- app_comm_cons.
  rewrite rep_stop by (exact (value_not_space _ Hx)).
  cbn [bt]. rewrite rep_stop by (exact (value_not_quote _ Hx)).
  unfold gateway_value. rewrite bt_NotAhead_lits.
  rewrite app_comm_cons, starts_with_app_r by (simpl in *; lia).
  destruct (starts_with (codes "${") (x :: v)); [reflexivity|].
  rewrite bt_Repeat_last_run; [|apply forallb_value_set; exact Hv|].
  - destruct (Nat.leb_spec 8 (length (x :: v))) as [_|Hlt]; [reflexivity | lia].
  - destruct rest; simpl in *; [exact I|].
    rewrite value_set_value_char. exact Hrest.
Qed.

Lemma In_gateway_finding s ab :
  In ab (spans gateway_re s) ->
  In (finding_of "Castle/OpenClaw Secret" gateway_rule s ab) (analyze_string castle s).
Proof.
  intros H. rewrite analyze_castle. apply in_or_app. right.
  apply in_or_app. left. apply in_map. exact H.
Qed.

(** ** WebSocket URLs *)

Lemma host_head_alnum c : in_cset host_head_set c = ascii_isalnum c.
Proof.
  unfold in_cset, host_head_set, ascii_isalnum, ascii_isdigit. simpl.
  destruct ((97 <=? c) && (c <=? 122))%N, ((65 <=? c) && (c <=? 90))%N,
    ((48 <=? c) && (c <=? 57))%N; reflexivity.
Qed.

Lemma host_tail_host_char c : in_cset host_tail_set c = host_char c.
Proof.
  unfold in_cset, host_tail_set, host_char. simpl.
  destruct (isword c), (c =? 46)%N, (c =? 45)%N, (c =? 58)%N; reflexivity.
Qed.

Lemma forallb_host_tail h :
  forallb host_char h = true -> forallb (in_cset host_tail_set) h = true.
Proof.
  induction h as [|c h IH]; simpl; [reflexivity|].
  rewrite host_tail_host_char, !andb_true_iff. intros [Hc Hh]. auto.
Qed.

(** After either scheme and [://] the pattern goes on with the host. *)
Lemma websocket_at_scheme scheme s :
  In scheme schemes ->
  bt websocket_re (scheme ++ codes "://" ++ s) =
  option_map (Nat.add (length scheme + 3)) (bt websocket_host s).
Proof.
  unfold websocket_re. generalize websocket_host. intros r.
  simpl. intros [<-|[<-|[]]]; simpl; destruct (bt r s); reflexivity.
Qed.

(** The match of the host part: none of the three literals may start the
    text, which must start with an ASCII letter or digit and go on with
    at least one host character. *)
Lemma websocket_host_run c host rest :
  forallb host_char host = true -> stops host_char rest ->
  bt websocket_host (c :: host ++ rest) =
  if existsb (fun lit => starts_with lit (c :: host ++ rest)) loopback then None
  else if ascii_isalnum c && Nat.leb 1 (length host)
       then Some (S (length host)) else None.
Proof.
  intros Hh Hrest. unfold websocket_host.
  rewrite !bt_NotAhead_lits. cbn [existsb loopback].
  destruct (starts_with (codes "localhost") (c :: host ++ rest)); [reflexivity|].
  destruct (starts_with (codes "127.0.0.1") (c :: host ++ rest)); [reflexivity|].
  destruct (starts_with (codes "0.0.0.0") (c :: host ++ rest)); [reflexivity|].
  cbn [orb].
  change (bt (One host_head_set (Repeat host_tail_set 1 None Nil)) (c :: host ++ rest))
    with (if in_cset host_head_set c
          then option_map S (bt (Repeat host_tail_set 1 None Nil) (host ++ rest))
          else None).
  rewrite host_head_alnum.
  destruct (ascii_isalnum c); [|reflexivity].
  rewrite bt_Repeat_last_run; [|apply forallb_host_tail; exact Hh|].
  - cbn [andb]. destruct (Nat.leb 1 (length host)); reflexivity.
  - destruct rest; simpl in *; [exact I|].
    rewrite host_tail_host_char. exact Hrest.
Qed.

Lemma websocket_finding_span s f :
  In f (analyze_string castle s) -> f_rule f = websocket_rule ->
  exists ab, In ab (spans websocket_re s) /\ f_start f = fst ab.
Proof.
  rewrite analyze_castle. intros Hin Hrule.
  apply in_app_or in Hin. destruct Hin as [Hin|Hin].
  { apply in_map_iff in Hin. destruct Hin as (ab & <- & _). discriminate. }
  apply in_app_or in Hin. destruct Hin as [Hin|Hin].
  { apply in_map_iff in Hin. destruct Hin as (ab & <- & _). discriminate. }
  apply in_map_iff in Hin. destruct Hin as (ab & <- & Hab).
  exists ab. split; [exact Hab | reflexivity].
Qed.

Lemma websocket_host_shape s :
  host_shape s = false -> bt websocket_host s = None.
Proof.
  intros H. unfold websocket_host. rewrite !bt_NotAhead_lits.
  destruct (starts_with (codes "localhost") s); [reflexivity|].
  destruct (starts_with (codes "127.0.0.1") s); [reflexivity|].
  destruct (starts_with (codes "0.0.0.0") s); [reflexivity|].
  destruct s as [|c [|d u]]; [reflexivity| |].
  - cbn [bt rep]. destruct (in_cset host_head_set c); reflexivity.
  - cbn [bt rep]. rewrite host_head_alnum, host_tail_host_char.
    simpl in H. destruct (ascii_isalnum c); [|reflexivity].
    simpl in H. rewrite H. reflexivity.
Qed.

Lemma spans_not_at_start r s :
  bt r s = None -> Forall (fun ab => 1 <= fst ab) (spans r s).
Proof.
  intros H. unfold spans. destruct s as [|c t]; cbn [finditer]; rewrite H.
  - constructor.
  - apply finditer_start.
Qed.

(** ** Matches at an offset of a text *)

Lemma finditer_In_bt r s : forall skip pos a b,
  In (a, b) (finditer r skip pos s) ->
  exists i, a = pos + i /\ i <= length s /\ bt r (skipn i s) = Some (b - a).
Proof.
  induction s as [|c t IH]; intros skip pos a b Hin; simpl in Hin.
  - destruct skip; [|destruct Hin].
    destruct (bt r []) as [n|] eqn:Hb; [|destruct Hin].
    destruct Hin as [[= <- <-]|[]].
    exists 0. rewrite Nat.add_0_r. repeat split; [simpl; lia|].
    simpl. rewrite Hb. f_equal. lia.
  - assert (Hrec : forall k, In (a, b) (finditer r k (S pos) t) ->
              exists i, a = pos + i /\ i <= length (c :: t) /\
                        bt r (skipn i (c :: t)) = Some (b - a)).
    { intros k Hk. destruct (IH _ _ _ _ Hk) as (i & -> & Hi & Hb).
      exists (S i). simpl. repeat split; [lia | lia | exact Hb]. }
    destruct skip as [|k]; [|eauto].
    destruct (bt r (c :: t)) as [n|] eqn:Hb; [|eauto].
    destruct Hin as [[= <- <-]|Hin]; [|eauto].
    exists 0. rewrite Nat.add_0_r. repeat split; [simpl; lia|].
    simpl. rewrite Hb. f_equal. lia.
Qed.

Lemma spans_In_bt r s a b :
  In (a, b) (spans r s) -> a <= length s /\ bt r (skipn a s) = Some (b - a).
Proof.
  intros H. apply finditer_In_bt in H. destruct H as (i & -> & Hi & Hb).
  simpl. auto.
Qed.

Lemma firstn_app_exact {A} (x y : list A) k :
  firstn (length x + k) (x ++ y) = x ++ firstn k y.
Proof.
  rewrite firstn_app, firstn_all2 by lia.
  replace (length x + k - length x) with k by lia. reflexivity.
Qed.

Lemma match_text (s : text) a n (x rest : text) :
  skipn a s = x ++ rest -> n = length x ->
  firstn n (skipn a s) = x /\ skipn (a + n) s = rest.
Proof.
  intros Hs ->. split.
  - rewrite Hs. rewrite <- (Nat.add_0_r (length x)), firstn_app_exact.
    simpl. apply app_nil_r.
  - rewrite (Nat.add_comm a), <- (skipn_skipn (length x) a s), Hs.
    rewrite skipn_app, skipn_all, Nat.sub_diag. reflexivity.
Qed.

Lemma In_rule_finding s i r ab :
  nth_error (denylist castle) i = Some r -> In ab (spans r s) ->
  In (finding_of "Castle/OpenClaw Secret" i s ab) (analyze_string castle s).
Proof.
  intros Hr Hab. rewrite analyze_castle.
  destruct i as [|[|[|i]]]; simpl in Hr.
  - injection Hr as <-. apply in_or_app. left. apply in_map. exact Hab.
  - injection Hr as <-. apply in_or_app. right. apply in_or_app. left.
    apply in_map. exact Hab.
  - injection Hr as <-. apply in_or_app. right. apply in_or_app. right.
    apply in_map. exact Hab.
  - destruct i; discriminate.
Qed.

Lemma LeftmostLongest_covers r s : forall from l,
  LeftmostLongest r s from l ->
  forall i m, from <= i <= length s -> Matches r (skipn i s) m ->
  exists a b, In (a, b) l /\ a <= i < b.
Proof.
  induction 1 as [from Hno|from a b rest Hfa Hab Hb Hleft Hm Hlong Hrest IH];
    intros i m Hi Hmi.
  - destruct (Hno i m Hi Hmi).
  - destruct (Nat.lt_ge_cases i a) as [Hlt|Hge].
    + destruct (Hleft i m (conj (proj1 Hi) Hlt) Hmi).
    + destruct (Nat.lt_ge_cases i b) as [Hin|Hout].
      * exists a, b. split; [left; reflexivity | lia].
      * destruct (IH i m (conj Hout (proj2 Hi)) Hmi) as (a' & b' & Hin' & Hab').
        exists a', b'. split; [right; exact Hin' | exact Hab'].
Qed.

Lemma skipn_app_after (pre x : text) (a : nat) :
  length pre <= a -> skipn a (pre ++ x) = skipn (a - length pre) x.
Proof.
  intros Ha. rewrite skipn_app, skipn_all2 by exact Ha. reflexivity.
Qed.

Lemma skipn_app_at (pre x : text) : skipn (length pre) (pre ++ x) = x.
Proof. rewrite skipn_app_after, Nat.sub_diag by lia. reflexivity. Qed.

(** A span of a rule starts where its pattern matches. *)
Lemma span_start_matches r s a b :
  In (a, b) (spans r s) -> bt r (skipn a s) <> None.
Proof. intros H. apply spans_In_bt in H. destruct H as [_ H]. congruence. Qed.

(** The engine at a URL whose text after [://] has the shape of a host
    and starts with none of the loopback literals. *)
Lemma websocket_at_url scheme c host rest :
  In scheme schemes ->
  ascii_isalnum c = true -> 1 <= length host ->
  forallb host_char host = true -> stops host_char rest ->
  (forall lit, In lit loopback -> starts_with lit (c :: host ++ rest) = false) ->
  bt websocket_re (scheme ++ codes "://" ++ c :: host ++ rest) =
  Some (length scheme + 3 + S (length host)).
Proof.
  intros Hs Hc Hlen Hh Hrest Hlits.
  rewrite (websocket_at_scheme scheme (c :: host ++ rest) Hs).
  rewrite websocket_host_run by assumption.
  replace (existsb (fun lit => starts_with lit (c :: host ++ rest)) loopback)
    with false.
  2:{ symmetry. apply not_true_is_false. intros Hex.
      apply existsb_exists in Hex. destruct Hex as (lit & Hin & Hst).
      rewrite (Hlits _ Hin) in Hst. discriminate. }
  rewrite Hc. destruct (Nat.leb_spec 1 (length host)) as [_|Hlt]; [|lia].
  reflexivity.
Qed.

(** The engine at a URL whose text after [://] has not the shape of a
    host. *)
Lemma websocket_at_misshapen scheme s :
  In scheme schemes -> host_shape s = false ->
  bt websocket_re (scheme ++ codes "://" ++ s) = None.
Proof.
  intros Hs Hshape.
  rewrite websocket_at_scheme, websocket_host_shape by assumption. reflexivity.
Qed.

(** No match of the WebSocket pattern starts at any character of a URL
    up to the end of a loopback literal that follows [://]. *)
Lemma loopback_no_start scheme lit rest k :
  In scheme schemes -> In lit loopback ->
  k < length (scheme ++ codes "://" ++ lit) ->
  bt websocket_re (skipn k (scheme ++ codes "://" ++ lit ++ rest)) = None.
Proof.
  intros [<-|[<-|[]]] [<-|[<-|[<-|[]]]] Hk;
    do 16 (try (destruct k as [|k]; [vm_compute; reflexivity|]));
    exfalso; simpl in Hk; lia.
Qed.

(** The scan of such a URL goes on after the literal. *)
Lemma loopback_spans scheme lit rest :
  In scheme schemes -> In lit loopback ->
  spans websocket_re (scheme ++ codes "://" ++ lit ++ rest) =
  finditer websocket_re 0 (length (scheme ++ codes "://" ++ lit)) rest.
Proof.
  unfold spans. intros [<-|[<-|[]]] [<-|[<-|[<-|[]]]]; reflexivity.
Qed.

Lemma websocket_absent s pos :
  ~ In (ch "w") s -> finditer websocket_re 0 pos s = [].
Proof.
  change websocket_re with (Lit (ch "w") (Lit (ch "s")
    (Repeat (single (ch "s")) 0 (Some 1) (lits (codes "://") websocket_host)))).
  apply finditer_absent.
Qed.

(** The scan of a URL whose text after [://] has not the shape of a host
    goes on after [://]. *)
Lemma misshapen_spans scheme s :
  In scheme schemes -> host_shape s = false ->
  spans websocket_re (scheme ++ codes "://" ++ s) =
  finditer websocket_re 0 (length scheme + 3) s.
Proof.
  intros Hs Hshape.
  pose proof (websocket_at_misshapen scheme s Hs Hshape) as Hb.
  unfold spans. destruct Hs as [<-|[<-|[]]].
  - change (codes "ws" ++ codes "://" ++ s)
      with (ch "w" :: (codes "s://" ++ s)) in *.
    cbn [finditer]. rewrite Hb. reflexivity.
  - change (codes "wss" ++ codes "://" ++ s)
      with (ch "w" :: (codes "ss://" ++ s)) in *.
    cbn [finditer]. rewrite Hb. reflexivity.
Qed.

Lemma absent_by_test (c : char) (l : text) :
  existsb (N.eqb c) l = false -> ~ In c l.
Proof.
  intros H Hin. assert (Ht : existsb (N.eqb c) l = true).
  { apply existsb_exists. exists c. split; [exact Hin | apply N.eqb_refl]. }
  congruence.
Qed.

(** ** Letter case *)

Lemma upper_letter_not_lower_hex c : upper_letter c = true -> lower_hex c = false.
Proof.
  unfold upper_letter, lower_hex.
  change (ch "A") with 65%N. change (ch "F") with 70%N.
  change (ch "0") with 48%N. change (ch "9") with 57%N.
  change (ch "a") with 97%N. change (ch "f") with 102%N.
  destruct (N.leb_spec 65 c), (N.leb_spec c 70), (N.leb_spec 48 c),
    (N.leb_spec c 57), (N.leb_spec 97 c), (N.leb_spec c 102);
    simpl; intros; try reflexivity; try discriminate; lia.
Qed.

Lemma forallb_firstn (p : char -> bool) (l : text) : forall k,
  forallb p l = true -> forallb p (firstn k l) = true.
Proof.
  induction l as [|x l IH]; intros [|k]; simpl; auto.
  rewrite !andb_true_iff. intros [Hx Hl]. auto.
Qed.

(** The reward pattern matches at [rew_] only before 32 lowercase
    hexadecimal digits. *)
Lemma reward_needs_run s n :
  bt reward_re (codes "rew_" ++ s) = Some n ->
  32 <= length s /\ forallb lower_hex (firstn 32 s) = true.
Proof.
  unfold reward_re. rewrite bt_lits_app.
  destruct (bt (Repeat hex_set 32 None Nil) s) as [m|] eqn:Hb; [|discriminate].
  intros _. apply bt_sound in Hb.
  destruct Hb as (j & m' & (Hlo & _ & Hlen & Hall) & _).
  split; [lia|].
  replace (firstn 32 s) with (firstn 32 (firstn j s))
    by (rewrite firstn_firstn; f_equal; lia).
  apply forallb_firstn.
  clear - Hall. induction (firstn j s) as [|x l IH]; simpl in *; [reflexivity|].
  rewrite hex_set_lower_hex in Hall.
  apply andb_true_iff in Hall. destruct Hall as [Hx Hl].
  rewrite Hx. simpl. auto.
Qed.

(** A text made of characters among which none of [r], [O] and [w]
    occurs holds no match of any of the three patterns. *)
Lemma quiet_text (p : char -> bool) h pos :
  forallb p h = true ->
  p (ch "r") = false -> p (ch "O") = false -> p (ch "w") = false ->
  finditer reward_re 0 pos h = [] /\
  finditer gateway_re 0 pos h = [] /\
  finditer websocket_re 0 pos h = [].
Proof.
  intros Hh Hr HO Hw. repeat split.
  - change reward_re with
      (Lit (ch "r") (lits (codes "ew_") (Repeat hex_set 32 None Nil))).
    apply finditer_absent. exact (forallb_absent p _ _ Hh Hr).
  - change gateway_re with (Lit (ch "O") (lits (codes "PENCLAW_GATEWAY_TOKEN")
      (Repeat space_set 0 None
        (Lit (ch "=")
          (Repeat space_set 0 None
            (Repeat quote_set 0 (Some 1) gateway_value)))))).
    apply finditer_absent. exact (forallb_absent p _ _ Hh HO).
  - change websocket_re with (Lit (ch "w") (Lit (ch "s")
      (Repeat (single (ch "s")) 0 (Some 1) (lits (codes "://") websocket_host)))).
    apply finditer_absent. exact (forallb_absent p _ _ Hh Hw).
Qed.

Lemma analyze_upper_prefix h :
  forallb lower_hex h = true -> analyze_string castle (codes "REW_" ++ h) = [].
Proof.
  intros Hh. rewrite analyze_castle. unfold spans.
  destruct (quiet_text lower_hex h 4 Hh eq_refl eq_refl eq_refl) as (H1 & H2 & H3).
  change (finditer reward_re 0 0 (codes "REW_" ++ h))
    with (finditer reward_re 0 4 h).
  change (finditer gateway_re 0 0 (codes "REW_" ++ h))
    with (finditer gateway_re 0 4 h).
  change (finditer websocket_re 0 0 (codes "REW_" ++ h))
    with (finditer websocket_re 0 4 h).
  rewrite H1, H2, H3. reflexivity.
Qed.

Lemma analyze_upper_digits h :
  forallb upper_hex h = true -> length h = 32 -> existsb upper_letter h = true ->
  analyze_string castle (codes "rew_" ++ h) = [].
Proof.
  intros Hh Hlen Hex. rewrite analyze_castle. unfold spans.
  destruct (quiet_text upper_hex h 4 Hh eq_refl eq_refl eq_refl) as (H1 & H2 & H3).
  assert (Hbt : bt reward_re (codes "rew_" ++ h) = None).
  { destruct (bt reward_re (codes "rew_" ++ h)) as [n|] eqn:Hb; [|reflexivity].
    apply reward_needs_run in Hb. destruct Hb as [_ Hall].
    rewrite firstn_all2 in Hall by lia.
    apply existsb_exists in Hex. destruct Hex as (x & Hin & Hx).
    rewrite forallb_forall in Hall. specialize (Hall _ Hin).
    rewrite (upper_letter_not_lower_hex _ Hx) in Hall. discriminate. }
  replace (finditer reward_re 0 0 (codes "rew_" ++ h))
    with (finditer reward_re 0 4 h).
  2:{ change (codes "rew_" ++ h) with (ch "r" :: (codes "ew_" ++ h)) in *.
      cbn [finditer]. rewrite Hbt. reflexivity. }
  change (finditer gateway_re 0 0 (codes "rew_" ++ h))
    with (finditer gateway_re 0 4 h).
  change (finditer websocket_re 0 0 (codes "rew_" ++ h))
    with (finditer websocket_re 0 4 h).
  rewrite H1, H2, H3. reflexivity.
Qed.

(** ** Examples *)

(** Patterns that [re.compile] refuses: an unterminated set, a reversed
    range, an unclosed group, a stray closing parenthesis, a repeat of
    nothing, reversed bounds.  A brace that is not a quantifier stands
    for itself. *)
Example re_compile_unterminated_set :
  re_compile (codes "rew_[a-f0-9{32,}") =
  Raise (BadPattern "unterminated character set").
Proof. reflexivity. Qed.

Example re_compile_bad_range :
  re_compile (codes "rew_[f-a0-9]{32,}") = Raise (BadPattern "bad character range").
Proof. reflexivity. Qed.

Example re_compile_unclosed_group :
  re_compile (codes "wss?://(?!localhost") =
  Raise (BadPattern "missing ), unterminated subpattern").
Proof. reflexivity. Qed.

Example re_compile_stray_parenthesis :
  re_compile (codes "wss?://)") = Raise (BadPattern "unbalanced parenthesis").
Proof. reflexivity. Qed.

Example re_compile_nothing_to_repeat :
  re_compile (codes "+rew_") = Raise (BadPattern "nothing to repeat").
Proof. reflexivity. Qed.

Example re_compile_reversed_bounds :
  re_compile (codes "rew_[a-f0-9]{32,8}") =
  Raise (BadPattern "min repeat greater than max repeat").
Proof. reflexivity. Qed.

Example re_compile_literal_brace :
  re_compile (codes "a{3,x") =
  Ok (lits (codes "a{3,x") Nil).
Proof. reflexivity. Qed.

(** A class body with a malformed pattern produces no detector. *)
Example define_detector_fails :
  define_detector "Castle/OpenClaw Secret"
    [reward_pattern; codes "OPENCLAW_GATEWAY_TOKEN\s*=\s*[^\s"] =
  Raise (BadPattern "unterminated character set").
Proof. reflexivity. Qed.

(** The scan goes on after the end of a match: the second scheme is
    covered by the first match, the third is found. *)
Example spans_after_match :
  spans websocket_re (codes "ws://aws://b ws://cd") = [(0, 9); (13, 20)].
Proof. vm_compute. reflexivity. Qed.

Example findall_after_match :
  findall websocket_re (codes "ws://aws://b ws://cd") =
  [codes "ws://aws:"; codes "ws://cd"].
Proof. vm_compute. reflexivity. Qed.

(** Whitespace around the equals sign and a quote before the value are
    part of the match; a quoted placeholder is suppressed as well. *)
Example gateway_spaced_assignment :
  findall gateway_re (codes "OPENCLAW_GATEWAY_TOKEN = 'abcdef1234'") =
  [codes "OPENCLAW_GATEWAY_TOKEN = 'abcdef1234"].
Proof. vm_compute. reflexivity. Qed.

Example gateway_quoted_placeholder :
  findall gateway_re (codes "OPENCLAW_GATEWAY_TOKEN = '${SOME_VAR}'") = [].
Proof. vm_compute. reflexivity. Qed.

(** * The claims *)

(** C1: scanning [OPENCLAW_GATEWAY_TOKEN=${SOME_VAR}] yields no finding;
    scanning [OPENCLAW_GATEWAY_TOKEN="abcdef1234"] yields exactly one
    finding, of the gateway-token rule (it spans the assignment up to the
    closing quote, which is left out).  The placeholder suppresses the
    match at the assignment whatever follows the marker. *)
Theorem gateway_placeholder_suppressed :
  analyze_string castle (codes "OPENCLAW_GATEWAY_TOKEN=${SOME_VAR}") = [] /\
  analyze_string castle
    (codes "OPENCLAW_GATEWAY_TOKEN=" ++ [DQ] ++ codes "abcdef1234" ++ [DQ]) =
  [mkFinding "Castle/OpenClaw Secret" gateway_rule 0 34
     (codes "OPENCLAW_GATEWAY_TOKEN=" ++ [DQ] ++ codes "abcdef1234")] /\
  (forall rest, bt gateway_re (codes "OPENCLAW_GATEWAY_TOKEN=${" ++ rest) = None).
Proof.
  split; [vm_compute; reflexivity|].
  split; [vm_compute; reflexivity|].
  intros rest. vm_compute. reflexivity.
Qed.

(** C2: [rew_] followed by exactly 32 lowercase hexadecimal digits yields
    one finding, of the reward-token rule, spanning the whole token;
    followed by 31 such digits and no further one it yields no finding.
    The same holds of the match at the prefix when other text follows
    the digits. *)
Theorem reward_token_boundary (h : text) :
  forallb lower_hex h = true ->
  (length h = 32 ->
     analyze_string castle (codes "rew_" ++ h) =
     [mkFinding "Castle/OpenClaw Secret" reward_rule 0 36 (codes "rew_" ++ h)] /\
     forall rest, stops lower_hex rest ->
       bt reward_re (codes "rew_" ++ h ++ rest) = Some 36) /\
  (length h = 31 ->
     analyze_string castle (codes "rew_" ++ h) = [] /\
     forall rest, stops lower_hex rest ->
       bt reward_re (codes "rew_" ++ h ++ rest) = None).
Proof.
  intros Hh. split; intros Hlen.
  - split.
    + rewrite analyze_token, Hlen by exact Hh. reflexivity.
    + intros rest Hrest. rewrite reward_at_token, Hlen by assumption. reflexivity.
  - split.
    + rewrite analyze_token, Hlen by exact Hh. reflexivity.
    + intros rest Hrest. rewrite reward_at_token, Hlen by assumption. reflexivity.
Qed.

(** C3: the three loopback URLs yield no finding, and
    [wss://gateway.example.com/path] yields exactly one finding, of the
    WebSocket-URL rule; it spans the scheme and the host. *)
Theorem loopback_urls_excluded :
  analyze_string castle (codes "wss://localhost:8080/path") = [] /\
  analyze_string castle (codes "ws://127.0.0.1/x") = [] /\
  analyze_string castle (codes "wss://0.0.0.0/y") = [] /\
  analyze_string castle (codes "wss://gateway.example.com/path") =
  [mkFinding "Castle/OpenClaw Secret" websocket_rule 0 25
     (codes "wss://gateway.example.com")].
Proof.
  repeat split; vm_compute; reflexivity.
Qed.

(** C4, as the code has it, for a [ws://] or [wss://] URL at any offset
    of a text.
    - When the host is one of the three loopback literals (the literal,
      then the end of the text, a port, a path, a query or a fragment),
      no finding of the WebSocket-URL rule starts at the scheme of the
      URL nor anywhere up to the end of the literal.
    - When the text after [://] starts with none of the three literals,
      starts with an ASCII letter or digit and goes on with at least one
      host character, the rule reports a finding that covers the first
      character of the URL; when that finding starts at the URL, as it
      does when the URL starts the text, it spans the scheme and the
      run of host characters.
    - When the text after [://] does not start with an ASCII letter or
      digit followed by a host character, no finding of the rule starts
      at the scheme of the URL.
    - In the first and the third case, when the URL starts the text and
      no [w] occurs after the literal (after [://] in the third case),
      the rule yields no finding at all. *)
Theorem websocket_loopback_rule :
  (forall pre scheme lit rest f,
     In scheme schemes -> In lit loopback -> host_ends rest ->
     In f (analyze_string castle (pre ++ scheme ++ codes "://" ++ lit ++ rest)) ->
     f_rule f = websocket_rule ->
     f_start f < length pre \/
     length pre + length (scheme ++ codes "://" ++ lit) <= f_start f) /\
  (forall pre scheme c host rest,
     In scheme schemes ->
     ascii_isalnum c = true -> 1 <= length host ->
     forallb host_char host = true -> stops host_char rest ->
     (forall lit, In lit loopback -> starts_with lit (c :: host ++ rest) = false) ->
     exists f,
       In f (analyze_string castle
               (pre ++ scheme ++ codes "://" ++ c :: host ++ rest)) /\
       f_rule f = websocket_rule /\
       f_start f <= length pre < f_stop f /\
       (f_start f = length pre ->
          f_stop f = length pre + (length scheme + 3 + S (length host)) /\
          f_text f = scheme ++ codes "://" ++ c :: host)) /\
  (forall scheme c host rest,
     In scheme schemes ->
     ascii_isalnum c = true -> 1 <= length host ->
     forallb host_char host = true -> stops host_char rest ->
     (forall lit, In lit loopback -> starts_with lit (c :: host ++ rest) = false) ->
     In (mkFinding "Castle/OpenClaw Secret" websocket_rule 0
           (length scheme + 3 + S (length host))
           (scheme ++ codes "://" ++ c :: host))
        (analyze_string castle (scheme ++ codes "://" ++ c :: host ++ rest))) /\
  (forall pre scheme s f,
     In scheme schemes -> host_shape s = false ->
     In f (analyze_string castle (pre ++ scheme ++ codes "://" ++ s)) ->
     f_rule f = websocket_rule ->
     f_start f <> length pre) /\
  (forall scheme lit rest f,
     In scheme schemes -> In lit loopback -> host_ends rest ->
     ~ In (ch "w") rest ->
     In f (analyze_string castle (scheme ++ codes "://" ++ lit ++ rest)) ->
     f_rule f <> websocket_rule) /\
  (forall scheme s f,
     In scheme schemes -> host_shape s = false -> ~ In (ch "w") s ->
     In f (analyze_string castle (scheme ++ codes "://" ++ s)) ->
     f_rule f <> websocket_rule).
Proof.
  assert (Hexact : forall pre scheme c host rest,
     In scheme schemes ->
     ascii_isalnum c = true -> 1 <= length host ->
     forallb host_char host = true -> stops host_char rest ->
     (forall lit, In lit loopback -> starts_with lit (c :: host ++ rest) = false) ->
     forall b,
       In (length pre, b)
          (spans websocket_re (pre ++ scheme ++ codes "://" ++ c :: host ++ rest)) ->
       b = length pre + (length scheme + 3 + S (length host)) /\
       slice (pre ++ scheme ++ codes "://" ++ c :: host ++ rest) (length pre) b =
       scheme ++ codes "://" ++ c :: host).
  { intros pre scheme c host rest Hs Hc Hlen Hh Hrest Hlits b Hab.
    pose proof (websocket_at_url scheme c host rest Hs Hc Hlen Hh Hrest Hlits) as Hb.
    apply spans_In_bt in Hab. destruct Hab as [_ Hab].
    rewrite skipn_app_at, Hb in Hab. injection Hab as Hab.
    assert (Hbeq : b = length pre + (length scheme + 3 + S (length host))) by lia.
    split; [exact Hbeq|]. unfold slice. rewrite <- Hab.
    assert (Hsk : skipn (length pre)
                    (pre ++ scheme ++ codes "://" ++ c :: host ++ rest) =
                  (scheme ++ codes "://" ++ c :: host) ++ rest)
      by (rewrite skipn_app_at, <- !app_assoc; reflexivity).
    apply (match_text _ _ _ _ _ Hsk). rewrite !length_app. simpl. lia. }
  split; [|split; [|split; [|split; [|split]]]].
  - intros pre scheme lit rest f Hs Hl _ Hin Hrule.
    destruct (websocket_finding_span _ _ Hin Hrule) as ([a b] & Hab & ->).
    simpl. destruct (Nat.lt_ge_cases a (length pre)) as [Hlt|Hge]; [left; exact Hlt|].
    right. destruct (Nat.lt_ge_cases a
                       (length pre + length (scheme ++ codes "://" ++ lit)))
      as [Hin'|Hout]; [exfalso | exact Hout].
    apply (span_start_matches _ _ _ _ Hab).
    rewrite skipn_app_after by exact Hge.
    apply loopback_no_start; [exact Hs | exact Hl | lia].
  - intros pre scheme c host rest Hs Hc Hlen Hh Hrest Hlits.
    set (s := pre ++ scheme ++ codes "://" ++ c :: host ++ rest).
    assert (Hb : bt websocket_re (skipn (length pre) s) =
                 Some (length scheme + 3 + S (length host)))
      by (unfold s; rewrite skipn_app_at; apply websocket_at_url; assumption).
    assert (Hi : 0 <= length pre <= length s)
      by (unfold s; rewrite length_app; lia).
    pose proof (spans_LeftmostLongest websocket_re s websocket_Longest
                  (NonEmpty_Lit _ _)) as HLL.
    destruct (LeftmostLongest_covers _ _ _ _ HLL _ _ Hi (bt_sound _ _ _ Hb))
      as (a & b & Hab & Hcov).
    exists (finding_of "Castle/OpenClaw Secret" websocket_rule s (a, b)).
    split; [exact (In_rule_finding s websocket_rule websocket_re _ eq_refl Hab)|].
    split; [reflexivity|]. split; [exact Hcov|].
    cbn [finding_of f_start f_stop f_text fst snd]. intros ->.
    exact (Hexact pre scheme c host rest Hs Hc Hlen Hh Hrest Hlits b Hab).
  - intros scheme c host rest Hs Hc Hlen Hh Hrest Hlits.
    pose proof (websocket_at_url scheme c host rest Hs Hc Hlen Hh Hrest Hlits) as Hb.
    set (s := scheme ++ codes "://" ++ c :: host ++ rest) in *.
    assert (Hne : exists x t, s = x :: t).
    { subst s. destruct Hs as [<-|[<-|[]]]; simpl; eauto. }
    destruct Hne as (x & t & Hs'). rewrite Hs' in Hb.
    apply spans_head in Hb. rewrite <- Hs' in Hb.
    assert (Hab : In (0, length scheme + 3 + S (length host)) (spans websocket_re s))
      by (rewrite Hb; left; reflexivity).
    destruct (Hexact [] scheme c host rest Hs Hc Hlen Hh Hrest Hlits _ Hab)
      as [_ Hslice].
    cbn [app length] in Hslice. fold s in Hslice.
    replace (mkFinding "Castle/OpenClaw Secret" websocket_rule 0
               (length scheme + 3 + S (length host))
               (scheme ++ codes "://" ++ c :: host))
      with (finding_of "Castle/OpenClaw Secret" websocket_rule s
              (0, length scheme + 3 + S (length host)))
      by (unfold finding_of; cbn [fst snd]; rewrite Hslice; reflexivity).
    exact (In_rule_finding s websocket_rule websocket_re _ eq_refl Hab).
  - intros pre scheme s f Hs Hshape Hin Hrule Hstart.
    destruct (websocket_finding_span _ _ Hin Hrule) as ([a b] & Hab & Hfa).
    simpl in Hfa. rewrite Hstart in Hfa. subst a.
    apply (span_start_matches _ _ _ _ Hab).
    rewrite skipn_app_at. apply websocket_at_misshapen; assumption.
  - intros scheme lit rest f Hs Hl _ Hw Hin Hrule.
    destruct (websocket_finding_span _ _ Hin Hrule) as (ab & Hab & _).
    rewrite (loopback_spans scheme lit rest Hs Hl), (websocket_absent _ _ Hw) in Hab.
    destruct Hab.
  - intros scheme s f Hs Hshape Hw Hin Hrule.
    destruct (websocket_finding_span _ _ Hin Hrule) as (ab & Hab & _).
    rewrite (misshapen_spans scheme s Hs Hshape), (websocket_absent _ _ Hw) in Hab.
    destruct Hab.
Qed.

(** C5: for every text and each of the three rules, the reported spans
    are pairwise non-overlapping and each is the leftmost match after the
    previous span and the longest match from its start; for [rew_]
    followed by 40 lowercase hexadecimal digits the reward rule reports
    the single span of all 44 characters, and the match at the prefix
    spans 44 characters whatever non-hexadecimal text follows. *)
Theorem denylist_leftmost_longest :
  (forall r s, In r (denylist castle) ->
     LeftmostLongest r s 0 (spans r s) /\
     ForallOrdPairs disjoint_spans (spans r s)) /\
  (forall h, forallb lower_hex h = true -> length h = 40 ->
     spans reward_re (codes "rew_" ++ h) = [(0, 44)] /\
     analyze_string castle (codes "rew_" ++ h) =
     [mkFinding "Castle/OpenClaw Secret" reward_rule 0 44 (codes "rew_" ++ h)] /\
     forall rest, stops lower_hex rest ->
       bt reward_re (codes "rew_" ++ h ++ rest) = Some 44).
Proof.
  split.
  - intros r s Hr.
    assert (H : LeftmostLongest r s 0 (spans r s))
      by (apply spans_LeftmostLongest;
          [apply denylist_Longest | apply denylist_NonEmpty]; exact Hr).
    split; [exact H | exact (LeftmostLongest_disjoint _ _ _ _ H)].
  - intros h Hh Hlen. split; [|split].
    + rewrite reward_spans_token, Hlen by exact Hh. reflexivity.
    + rewrite analyze_token, Hlen by exact Hh. reflexivity.
    + intros rest Hrest. rewrite reward_at_token, Hlen by assumption. reflexivity.
Qed.

(** C6: scanning is deterministic: two runs over the same text return
    the same outcome, hence the same findings in the same order; what is
    more, for each rule the spans are the only sequence of spans that
    obeys the scanning discipline on that text. *)
Theorem scan_deterministic (s : text) :
  (forall out1 out2, scan s = out1 -> scan s = out2 -> out1 = out2) /\
  (forall r l, In r (denylist castle) ->
     LeftmostLongest r s 0 l -> l = spans r s).
Proof.
  split.
  - intros out1 out2 <- <-. reflexivity.
  - intros r l Hr Hl.
    apply (LeftmostLongest_unique r s 0); [exact Hl|].
    apply spans_LeftmostLongest;
      [apply denylist_Longest | apply denylist_NonEmpty]; exact Hr.
Qed.

(** C7: for every text the scan returns findings and raises nothing;
    the text is only read: every finding lies inside it and carries the
    characters of its span. *)
Theorem scan_total (s : text) :
  exists fs, scan s = Ok fs /\ Forall (well_placed s) fs.
Proof.
  exists (analyze_string castle s). split; [apply scan_compiled|].
  unfold analyze_string. apply scan_rules_well_placed.
  intros r Hr. split; [apply denylist_Longest | apply denylist_NonEmpty]; exact Hr.
Qed.

(** C8: the three patterns are well formed: executing the class body
    compiles each of them and yields the detector.  A class exists only
    when every pattern of its denylist compiled, and scanning runs the
    compiled patterns of that class. *)
Theorem patterns_compile_at_definition :
  re_compile reward_pattern = Ok reward_re /\
  re_compile gateway_pattern = Ok gateway_re /\
  re_compile websocket_pattern = Ok websocket_re /\
  CastleOpenClawDetector = Ok castle /\
  (forall ty ps d, define_detector ty ps = Ok d ->
     Forall2 (fun p r => re_compile p = Ok r) ps (denylist d)) /\
  (forall s, scan s = Ok (analyze_string castle s)).
Proof.
  split; [vm_compute; reflexivity|].
  split; [vm_compute; reflexivity|].
  split; [vm_compute; reflexivity|].
  split; [exact CastleOpenClawDetector_compiled|].
  split; [|exact scan_compiled].
  intros ty ps d H. unfold define_detector in H.
  destruct (compile_all ps) as [rs|e] eqn:Hps; simpl in H; [|discriminate].
  injection H as <-. simpl. apply compile_all_each. exact Hps.
Qed.

(** C9: the placeholder exclusion of the gateway-token rule looks for the
    two characters [${] only.  A value of 8 or more characters that
    starts otherwise, a bare dollar sign included, yields a finding of
    the gateway-token rule spanning the assignment; so does
    [OPENCLAW_GATEWAY_TOKEN=$GATEWAY_SECRET1], although it refers to an
    environment variable. *)
Theorem gateway_dollar_reference :
  (forall v rest,
     forallb value_char v = true -> 8 <= length v -> stops value_char rest ->
     starts_with (codes "${") v = false ->
     In (mkFinding "Castle/OpenClaw Secret" gateway_rule 0 (23 + length v)
           (codes "OPENCLAW_GATEWAY_TOKEN=" ++ v))
        (analyze_string castle (codes "OPENCLAW_GATEWAY_TOKEN=" ++ v ++ rest))) /\
  (forall v rest,
     forallb value_char v = true -> 8 <= length v -> stops value_char rest ->
     starts_with (codes "${") v = true ->
     bt gateway_re (codes "OPENCLAW_GATEWAY_TOKEN=" ++ v ++ rest) = None) /\
  analyze_string castle (codes "OPENCLAW_GATEWAY_TOKEN=$GATEWAY_SECRET1") =
  [mkFinding "Castle/OpenClaw Secret" gateway_rule 0 39
     (codes "OPENCLAW_GATEWAY_TOKEN=$GATEWAY_SECRET1")].
Proof.
  split; [|split; [|vm_compute; reflexivity]].
  - intros v rest Hv Hlen Hrest Hno.
    pose proof (gateway_at_assignment v rest Hv Hlen Hrest) as Hbt.
    rewrite Hno in Hbt.
    change (codes "OPENCLAW_GATEWAY_TOKEN=" ++ v ++ rest)
      with (ch "O" :: (codes "PENCLAW_GATEWAY_TOKEN=" ++ v ++ rest)) in *.
    apply spans_head in Hbt.
    match goal with |- In ?f _ =>
      replace f with (finding_of "Castle/OpenClaw Secret" gateway_rule
        (ch "O" :: codes "PENCLAW_GATEWAY_TOKEN=" ++ v ++ rest) (0, 23 + length v))
    end.
    + apply In_gateway_finding. rewrite Hbt. left. reflexivity.
    + unfold finding_of, slice. cbn [fst snd]. f_equal.
      rewrite Nat.sub_0_r. cbn [skipn].
      change (ch "O" :: codes "PENCLAW_GATEWAY_TOKEN=" ++ v ++ rest)
        with (codes "OPENCLAW_GATEWAY_TOKEN=" ++ v ++ rest).
      rewrite app_assoc.
      rewrite firstn_app, firstn_all2 by (rewrite length_app; simpl; lia).
      replace (23 + length v - length (codes "OPENCLAW_GATEWAY_TOKEN=" ++ v))
        with 0 by (rewrite length_app; simpl; lia).
      rewrite firstn_0, app_nil_r. reflexivity.
  - intros v rest Hv Hlen Hrest Hyes.
    rewrite gateway_at_assignment, Hyes by assumption. reflexivity.
Qed.

(** C10: the rules match case-sensitively.  [REW_] followed by lowercase
    hexadecimal digits, [rew_] followed by 32 hexadecimal digits written
    in upper case (at least one of them a letter), the lowercase
    assignment [openclaw_gateway_token="abcdef1234"] and the uppercase
    scheme [WSS://gateway.example.com/path] yield no finding of any
    rule. *)
Theorem rules_case_sensitive :
  (forall h, forallb lower_hex h = true ->
     analyze_string castle (codes "REW_" ++ h) = []) /\
  (forall h, forallb upper_hex h = true -> length h = 32 ->
     existsb upper_letter h = true ->
     analyze_string castle (codes "rew_" ++ h) = []) /\
  analyze_string castle (codes "REW_0123456789abcdef0123456789abcdef") = [] /\
  analyze_string castle (codes "rew_0123456789ABCDEF0123456789ABCDEF") = [] /\
  analyze_string castle
    (codes "openclaw_gateway_token=" ++ [DQ] ++ codes "abcdef1234" ++ [DQ]) = [] /\
  analyze_string castle (codes "WSS://gateway.example.com/path") = [].
Proof.
  split; [exact analyze_upper_prefix|].
  split; [exact analyze_upper_digits|].
  repeat split; vm_compute; reflexivity.
Qed.

(** * Further properties of the three patterns *)

(** ** From a finding back to the engine *)

(** The findings of a run, rule by rule. *)
Lemma analyze_castle_In s f :
  In f (analyze_string castle s) ->
  exists r ab,
    nth_error (denylist castle) (f_rule f) = Some r /\
    In ab (spans r s) /\
    f = finding_of "Castle/OpenClaw Secret" (f_rule f) s ab.
Proof.
  rewrite analyze_castle. intros Hin.
  apply in_app_or in Hin. destruct Hin as [Hin|Hin].
  { apply in_map_iff in Hin. destruct Hin as (ab & <- & Hab).
    exists reward_re, ab. auto. }
  apply in_app_or in Hin. destruct Hin as [Hin|Hin].
  { apply in_map_iff in Hin. destruct Hin as (ab & <- & Hab).
    exists gateway_re, ab. auto. }
  apply in_map_iff in Hin. destruct Hin as (ab & <- & Hab).
  exists websocket_re, ab. auto.
Qed.

Lemma nth_error_denylist i r :
  nth_error (denylist castle) i = Some r -> In r (denylist castle).
Proof. apply nth_error_In. Qed.

(** ** Splitting a text along a match *)

Lemma Matches_lits pre r : forall s n,
  Matches (lits pre r) s n ->
  exists t m, s = pre ++ t /\ Matches r t m /\ n = length pre + m.
Proof.
  induction pre as [|c pre IH]; intros s n H; simpl in *.
  - exists s, n. auto.
  - destruct H as (t & m & -> & Hm & ->).
    destruct (IH _ _ Hm) as (t' & m' & -> & Hm' & ->).
    exists t', m'. auto.
Qed.

Lemma Matches_Repeat cs lo hi r s n :
  Matches (Repeat cs lo hi r) s n ->
  exists run t m,
    s = run ++ t /\ forallb (in_cset cs) run = true /\
    lo <= length run /\ within hi (length run) /\
    Matches r t m /\ n = length run + m.
Proof.
  intros (j & m & (Hlo & Hhi & Hlen & Hall) & Hm & ->).
  exists (firstn j s), (skipn j s), m.
  rewrite firstn_skipn, length_firstn, Nat.min_l by lia. auto 7.
Qed.

Lemma Matches_NotAhead_lits lit r s n :
  Matches (NotAhead (lits lit Nil) r) s n ->
  starts_with lit s = false /\ Matches r s n.
Proof.
  intros [Hno Hm]. split; [|exact Hm].
  destruct (starts_with lit s) eqn:Hst; [|reflexivity].
  exfalso. pose proof (bt_lits lit Nil s) as Hb. rewrite Hst in Hb.
  simpl in Hb. exact (Hno _ (bt_sound _ _ _ Hb)).
Qed.

Lemma starts_with_app_l pre : forall s rest,
  starts_with pre s = true -> starts_with pre (s ++ rest) = true.
Proof.
  induction pre as [|c pre IH]; intros s rest H; [reflexivity|].
  destruct s as [|x s]; simpl in *; [discriminate|].
  apply andb_true_iff in H. destruct H as [-> H]. simpl. auto.
Qed.

(** A text splits into the longest run of [p] at its start and what
    stops it. *)
Lemma longest_run (p : char -> bool) (s : text) :
  exists run rest, s = run ++ rest /\ forallb p run = true /\ stops p rest.
Proof.
  induction s as [|c s IH].
  - exists [], []. simpl. auto.
  - destruct (p c) eqn:Hc.
    + destruct IH as (run & rest & -> & Hrun & Hrest).
      exists (c :: run), rest. simpl. rewrite Hc. auto.
    + exists [], (c :: s). simpl. auto.
Qed.

(** A repeat on a run that stops, when the rest of the pattern matches
    what follows the run. *)
Lemma bt_Repeat_run cs r run rest m : forall lo hi,
  forallb (in_cset cs) run = true -> lo <= length run ->
  within hi (length run) -> stops (in_cset cs) rest ->
  bt r rest = Some m ->
  bt (Repeat cs lo hi r) (run ++ rest) = Some (length run + m).
Proof.
  cbn [bt]. induction run as [|x run IH]; intros lo hi Hall Hlo Hhi Hstop Hk.
  - simpl in *. assert (lo = 0) by lia. subst lo.
    rewrite rep_stop by exact Hstop. exact Hk.
  - simpl in Hall. apply andb_true_iff in Hall. destruct Hall as [Hx Hall].
    simpl in Hhi. apply within_succ in Hhi. destruct Hhi as [Hmore Hhi].
    simpl. rewrite Hx, Hmore. simpl.
    rewrite (IH (Nat.pred lo) (option_map Nat.pred hi)); auto.
    simpl in Hlo. lia.
Qed.

(** ** What a match of each pattern looks like *)

Lemma space_set_isspace c : in_cset space_set c = isspace c.
Proof. unfold in_cset, space_set. simpl. apply orb_false_r. Qed.

Lemma forallb_space_set ws :
  forallb (in_cset space_set) ws = forallb isspace ws.
Proof.
  induction ws as [|c ws IH]; simpl; [reflexivity|].
  rewrite space_set_isspace, IH. reflexivity.
Qed.

Lemma forallb_set_value v :
  forallb (in_cset value_set) v = true -> forallb value_char v = true.
Proof.
  induction v as [|c v IH]; simpl; [reflexivity|].
  rewrite value_set_value_char, !andb_true_iff. intros [Hc Hv]. auto.
Qed.

Lemma forallb_set_hex h :
  forallb (in_cset hex_set) h = true -> forallb lower_hex h = true.
Proof.
  induction h as [|c h IH]; simpl; [reflexivity|].
  rewrite hex_set_lower_hex, !andb_true_iff. intros [Hc Hh]. auto.
Qed.

Lemma forallb_set_host h :
  forallb (in_cset host_tail_set) h = true -> forallb host_char h = true.
Proof.
  induction h as [|c h IH]; simpl; [reflexivity|].
  rewrite host_tail_host_char, !andb_true_iff. intros [Hc Hh]. auto.
Qed.

Lemma quote_run q :
  forallb (in_cset quote_set) q = true -> length q <= 1 -> In q opening_quotes.
Proof.
  destruct q as [|c [|d q]]; simpl; intros Hq Hlen; [auto| |lia].
  rewrite andb_true_r in Hq. unfold in_cset, quote_set in Hq. simpl in Hq.
  rewrite orb_false_r in Hq. apply orb_true_iff in Hq.
  destruct Hq as [Hq|Hq]; apply N.eqb_eq in Hq; subst c; auto.
Qed.

Lemma opening_quotes_run q :
  In q opening_quotes ->
  forallb (in_cset quote_set) q = true /\ length q <= 1.
Proof.
  intros [<-|[<-|[<-|[]]]]; split; simpl; auto; lia.
Qed.

Lemma stops_app (p q : char -> bool) (v rest : text) :
  (forall c, q c = true -> p c = false) ->
  forallb q v = true -> v <> [] -> stops p (v ++ rest).
Proof.
  intros Hpq Hv Hne. destruct v as [|x v]; [congruence|].
  simpl in *. apply andb_true_iff in Hv. destruct Hv as [Hx _]. auto.
Qed.

Lemma bt_Lit_same c r t : bt (Lit c r) (c :: t) = option_map S (bt r t).
Proof. cbn [bt]. rewrite N.eqb_refl. reflexivity. Qed.

(** The engine on an assignment: the key, whitespace, the equals sign,
    whitespace, at most one opening quote, and a value of 8 characters
    or more that does not begin with the placeholder marker. *)
Lemma gateway_at_general ws1 ws2 q v rest :
  forallb isspace ws1 = true -> forallb isspace ws2 = true ->
  In q opening_quotes ->
  forallb value_char v = true -> 8 <= length v -> stops value_char rest ->
  starts_with (codes "${") v = false ->
  bt gateway_re (gateway_key ++ ws1 ++ [ch "="] ++ ws2 ++ q ++ v ++ rest) =
  Some (23 + length ws1 + length ws2 + length q + length v).
Proof.
  intros H1 H2 Hq Hv Hlen Hrest Hno.
  assert (Hne : v <> []) by (intros ->; simpl in Hlen; lia).
  assert (Hvalue : bt gateway_value (v ++ rest) = Some (length v)).
  { unfold gateway_value. rewrite bt_NotAhead_lits.
    rewrite starts_with_app_r by (simpl; lia). rewrite Hno.
    rewrite bt_Repeat_last_run; [|apply forallb_value_set; exact Hv|].
    - destruct (Nat.leb_spec 8 (length v)); [reflexivity | lia].
    - destruct rest; simpl in *; [exact I|].
      rewrite value_set_value_char. exact Hrest. }
  destruct (opening_quotes_run _ Hq) as [Hqs Hql].
  assert (Hquote : bt (Repeat quote_set 0 (Some 1) gateway_value) (q ++ v ++ rest) =
                   Some (length q + length v)).
  { apply bt_Repeat_run; auto; [lia|].
    apply stops_app with (q := value_char); auto.
    intros c Hc. apply value_not_quote. rewrite value_set_value_char. exact Hc. }
  assert (Hs2 : bt (Repeat space_set 0 None (Repeat quote_set 0 (Some 1) gateway_value))
                  (ws2 ++ q ++ v ++ rest) =
                Some (length ws2 + (length q + length v))).
  { apply bt_Repeat_run; auto; [rewrite forallb_space_set; exact H2 | lia | exact I |].
    destruct Hq as [<-|[<-|[<-|[]]]]; [|reflexivity|reflexivity].
    simpl. apply stops_app with (q := value_char); auto.
    intros c Hc. apply value_not_space. rewrite value_set_value_char. exact Hc. }
  unfold gateway_re, gateway_key. rewrite bt_lits_app.
  rewrite (bt_Repeat_run _ _ ws1 _ (S (length ws2 + (length q + length v))));
    [simpl; f_equal; lia | rewrite forallb_space_set; exact H1 | lia | exact I
    | reflexivity |].
  cbn [app]. rewrite bt_Lit_same, Hs2. reflexivity.
Qed.

Lemma nil_of_length {A} (l : list A) : length l = 0 -> l = [].
Proof. destruct l; simpl; [reflexivity | discriminate]. Qed.

Lemma reward_match_shape u n :
  bt reward_re u = Some n ->
  exists h rest,
    u = codes "rew_" ++ h ++ rest /\ forallb lower_hex h = true /\
    32 <= length h /\ n = 4 + length h /\ stops lower_hex rest.
Proof.
  intros Hb. pose proof (bt_sound _ _ _ Hb) as Hm.
  unfold reward_re in Hm. apply Matches_lits in Hm.
  destruct Hm as (t & m & -> & Hm & ->).
  apply Matches_Repeat in Hm.
  destruct Hm as (run & t' & m' & -> & Hrun & Hlo & _ & Hnil & ->).
  simpl in Hnil. subst m'. apply forallb_set_hex in Hrun.
  destruct (longest_run lower_hex t') as (more & rest & -> & Hmore & Hrest).
  assert (Hall : forallb lower_hex (run ++ more) = true)
    by (rewrite forallb_app, Hrun, Hmore; reflexivity).
  replace (codes "rew_" ++ run ++ more ++ rest)
    with (codes "rew_" ++ (run ++ more) ++ rest) in Hb
    by (rewrite <- !app_assoc; reflexivity).
  rewrite (reward_at_token (run ++ more) rest Hall Hrest) in Hb.
  rewrite length_app in Hb.
  destruct (Nat.leb_spec 32 (length run + length more)); [|lia].
  injection Hb as Hb. simpl in Hb.
  assert (more = []) by (apply nil_of_length; lia). subst more.
  exists run, rest. simpl. auto 6.
Qed.

Lemma gateway_match_shape u n :
  bt gateway_re u = Some n ->
  exists ws1 ws2 q v rest,
    u = gateway_key ++ ws1 ++ [ch "="] ++ ws2 ++ q ++ v ++ rest /\
    forallb isspace ws1 = true /\ forallb isspace ws2 = true /\
    In q opening_quotes /\
    forallb value_char v = true /\ 8 <= length v /\
    starts_with (codes "${") v = false /\
    n = 23 + length ws1 + length ws2 + length q + length v /\
    stops value_char rest.
Proof.
  intros Hb. pose proof (bt_sound _ _ _ Hb) as Hm.
  unfold gateway_re in Hm. apply Matches_lits in Hm.
  destruct Hm as (t & m & -> & Hm & ->).
  apply Matches_Repeat in Hm.
  destruct Hm as (ws1 & t1 & m1 & -> & Hws1 & _ & _ & Hm & ->).
  destruct Hm as (t2 & m2 & -> & Hm & ->).
  apply Matches_Repeat in Hm.
  destruct Hm as (ws2 & t3 & m3 & -> & Hws2 & _ & _ & Hm & ->).
  apply Matches_Repeat in Hm.
  destruct Hm as (q & t4 & m4 & -> & Hq & _ & Hql & Hm & ->).
  unfold gateway_value in Hm. apply Matches_NotAhead_lits in Hm.
  destruct Hm as [Hno Hm]. apply Matches_Repeat in Hm.
  destruct Hm as (v & t5 & m5 & -> & Hv & Hlen & _ & Hnil & ->).
  simpl in Hnil. subst m5. simpl in Hql.
  rewrite forallb_space_set in Hws1, Hws2.
  apply forallb_set_value in Hv. pose proof (quote_run _ Hq Hql) as Hqin.
  rewrite starts_with_app_r in Hno by (simpl; lia).
  destruct (longest_run value_char t5) as (more & rest & -> & Hmore & Hrest).
  assert (Hall : forallb value_char (v ++ more) = true)
    by (rewrite forallb_app, Hv, Hmore; reflexivity).
  assert (Hno' : starts_with (codes "${") (v ++ more) = false)
    by (rewrite starts_with_app_r by (simpl; lia); exact Hno).
  assert (Heq : gateway_key ++ ws1 ++ (ch "=" :: ws2 ++ q ++ v ++ more ++ rest) =
                gateway_key ++ ws1 ++ [ch "="] ++ ws2 ++ q ++ (v ++ more) ++ rest)
    by (simpl; rewrite <- !app_assoc; reflexivity).
  change (codes "OPENCLAW_GATEWAY_TOKEN") with gateway_key in Hb.
  rewrite Heq in Hb.
  rewrite (gateway_at_general ws1 ws2 q (v ++ more) rest) in Hb; auto;
    [|rewrite length_app; lia].
  rewrite length_app in Hb. injection Hb as Hb. simpl in Hb.
  assert (more = []) by (apply nil_of_length; lia). subst more.
  exists ws1, ws2, q, v, rest. simpl. rewrite Nat.add_0_r.
  repeat split; auto. lia.
Qed.

Lemma scheme_run srun :
  forallb (in_cset (single (ch "s"))) srun = true -> length srun <= 1 ->
  In (codes "ws" ++ srun) schemes.
Proof.
  destruct srun as [|c [|d srun]]; simpl; intros Hs Hlen; [auto| |lia].
  rewrite andb_true_r in Hs. unfold in_cset, single in Hs. simpl in Hs.
  rewrite orb_false_r in Hs. apply N.eqb_eq in Hs. subst c. auto.
Qed.

Lemma websocket_match_shape u n :
  bt websocket_re u = Some n ->
  exists scheme c host rest,
    In scheme schemes /\
    u = scheme ++ codes "://" ++ c :: host ++ rest /\
    ascii_isalnum c = true /\ forallb host_char host = true /\
    1 <= length host /\
    (forall lit, In lit loopback -> starts_with lit (c :: host ++ rest) = false) /\
    n = length scheme + 3 + S (length host) /\
    stops host_char rest.
Proof.
  intros Hb. pose proof (bt_sound _ _ _ Hb) as Hm.
  unfold websocket_re in Hm. apply Matches_lits in Hm.
  destruct Hm as (t & m & -> & Hm & ->).
  apply Matches_Repeat in Hm.
  destruct Hm as (srun & t1 & m1 & -> & Hsrun & _ & Hsl & Hm & ->).
  simpl in Hsl. pose proof (scheme_run _ Hsrun Hsl) as Hscheme.
  apply Matches_lits in Hm. destruct Hm as (t2 & m2 & -> & Hm & ->).
  unfold websocket_host in Hm.
  apply Matches_NotAhead_lits in Hm. destruct Hm as [Hl1 Hm].
  apply Matches_NotAhead_lits in Hm. destruct Hm as [Hl2 Hm].
  apply Matches_NotAhead_lits in Hm. destruct Hm as [Hl3 Hm].
  destruct Hm as (c & t3 & m3 & -> & Hc & Hm & ->).
  rewrite host_head_alnum in Hc.
  apply Matches_Repeat in Hm.
  destruct Hm as (host & t4 & m4 & -> & Hhost & Hlen & _ & Hnil & ->).
  simpl in Hnil. subst m4. apply forallb_set_host in Hhost.
  destruct (longest_run host_char t4) as (more & rest & -> & Hmore & Hrest).
  assert (Hall : forallb host_char (host ++ more) = true)
    by (rewrite forallb_app, Hhost, Hmore; reflexivity).
  assert (Hlits : forall lit, In lit loopback ->
            starts_with lit (c :: host ++ more ++ rest) = false).
  { intros lit [<-|[<-|[<-|[]]]]; assumption. }
  replace (codes "ws" ++ srun ++ codes "://" ++ c :: host ++ more ++ rest)
    with ((codes "ws" ++ srun) ++ codes "://" ++ c :: (host ++ more) ++ rest) in Hb
    by (rewrite <- !app_assoc; reflexivity).
  rewrite (websocket_at_scheme _ _ Hscheme) in Hb.
  rewrite (websocket_host_run c (host ++ more) rest Hall Hrest) in Hb.
  replace (existsb (fun lit => starts_with lit (c :: (host ++ more) ++ rest)) loopback)
    with false in Hb.
  2:{ symmetry. apply not_true_is_false. intros Hex.
      apply existsb_exists in Hex. destruct Hex as (lit & Hin & Hst).
      rewrite <- app_assoc in Hst. rewrite (Hlits _ Hin) in Hst. discriminate. }
  rewrite Hc, !length_app in Hb. cbn [andb] in Hb.
  destruct (Nat.leb_spec 1 (length host + length more)); [|lia].
  cbn [option_map] in Hb. injection Hb as Hb. simpl in Hb.
  assert (more = []) by (apply nil_of_length; lia). subst more.
  exists (codes "ws" ++ srun), c, host, rest.
  rewrite <- app_assoc.
  split; [exact Hscheme|]. split; [reflexivity|]. split; [exact Hc|].
  split; [exact Hhost|]. split; [lia|]. split; [exact Hlits|].
  split; [rewrite length_app; simpl; lia | exact Hrest].
Qed.

(** ** Findings in any text *)

(** A finding of the rule at position [i] is a match of the [i]-th
    pattern at its start offset, and carries the matched characters. *)
Lemma finding_match s f r :
  In f (analyze_string castle s) ->
  nth_error (denylist castle) (f_rule f) = Some r ->
  exists n, bt r (skipn (f_start f) s) = Some n /\
            f_stop f - f_start f = n /\
            f_text f = firstn n (skipn (f_start f) s).
Proof.
  intros Hin Hr. destruct (analyze_castle_In _ _ Hin) as (r' & [a b] & Hr' & Hab & Hf).
  rewrite Hr in Hr'. injection Hr' as <-.
  apply spans_In_bt in Hab. destruct Hab as [_ Hb].
  rewrite Hf. simpl. exists (b - a). auto.
Qed.

(** X1: in any text, a finding of the reward-token rule is [rew_]
    followed by 32 or more lowercase hexadecimal digits, and it takes
    the whole run of digits: the text does not go on with another one. *)
Theorem reward_finding_shape (s : text) (f : Finding) :
  In f (analyze_string castle s) -> f_rule f = reward_rule ->
  exists h,
    f_text f = codes "rew_" ++ h /\
    forallb lower_hex h = true /\ 32 <= length h /\
    f_stop f = f_start f + 4 + length h /\
    stops lower_hex (skipn (f_stop f) s).
Proof.
  intros Hin Hrule.
  destruct (finding_match s f reward_re Hin) as (n & Hb & Hn & Htext);
    [rewrite Hrule; reflexivity|].
  destruct (reward_match_shape _ _ Hb) as (h & rest & Hs & Hh & Hlen & -> & Hrest).
  rewrite app_assoc in Hs.
  destruct (match_text s (f_start f) (4 + length h) _ _ Hs) as [Ht Hskip];
    [rewrite length_app; reflexivity|].
  assert (Hstop : f_stop f = f_start f + 4 + length h) by lia.
  exists h. rewrite Htext, Ht, Hstop, <- Nat.add_assoc, Hskip. auto.
Qed.

(** X2: in any text, a finding of the gateway-token rule is the key,
    optional whitespace, the equals sign, optional whitespace, at most
    one opening quote, and a value of 8 or more characters that holds no
    whitespace and no quote and does not begin with [${]; the value is
    taken whole, up to the next whitespace, quote or end of text. *)
Theorem gateway_finding_shape (s : text) (f : Finding) :
  In f (analyze_string castle s) -> f_rule f = gateway_rule ->
  exists ws1 ws2 q v,
    f_text f = gateway_key ++ ws1 ++ [ch "="] ++ ws2 ++ q ++ v /\
    forallb isspace ws1 = true /\ forallb isspace ws2 = true /\
    In q opening_quotes /\
    forallb value_char v = true /\ 8 <= length v /\
    starts_with (codes "${") v = false /\
    stops value_char (skipn (f_stop f) s).
Proof.
  intros Hin Hrule.
  destruct (finding_match s f gateway_re Hin) as (n & Hb & Hn & Htext);
    [rewrite Hrule; reflexivity|].
  destruct (gateway_match_shape _ _ Hb)
    as (ws1 & ws2 & q & v & rest & Hs & H1 & H2 & Hq & Hv & Hlen & Hno & -> & Hrest).
  replace (gateway_key ++ ws1 ++ [ch "="] ++ ws2 ++ q ++ v ++ rest)
    with ((gateway_key ++ ws1 ++ [ch "="] ++ ws2 ++ q ++ v) ++ rest) in Hs
    by (rewrite <- !app_assoc; reflexivity).
  destruct (match_text s (f_start f)
              (23 + length ws1 + length ws2 + length q + length v) _ _ Hs)
    as [Ht Hskip]; [rewrite !length_app; simpl; lia|].
  assert (Hstop : f_stop f =
            f_start f + (23 + length ws1 + length ws2 + length q + length v))
    by lia.
  exists ws1, ws2, q, v. rewrite Htext, Ht, Hstop, Hskip. auto 8.
Qed.

(** X3: in any text, a finding of the WebSocket-URL rule is [ws://] or
    [wss://] followed by an ASCII letter or digit and one or more host
    characters, taken up to the first character that is not one; the
    host it reports never begins with [localhost], [127.0.0.1] or
    [0.0.0.0]. *)
Theorem websocket_finding_shape (s : text) (f : Finding) :
  In f (analyze_string castle s) -> f_rule f = websocket_rule ->
  exists scheme c host,
    In scheme schemes /\
    f_text f = scheme ++ codes "://" ++ c :: host /\
    ascii_isalnum c = true /\ forallb host_char host = true /\
    1 <= length host /\
    (forall lit, In lit loopback -> starts_with lit (c :: host) = false) /\
    stops host_char (skipn (f_stop f) s).
Proof.
  intros Hin Hrule.
  destruct (finding_match s f websocket_re Hin) as (n & Hb & Hn & Htext);
    [rewrite Hrule; reflexivity|].
  destruct (websocket_match_shape _ _ Hb)
    as (scheme & c & host & rest & Hsch & Hs & Hc & Hh & Hlen & Hlits & -> & Hrest).
  replace (scheme ++ codes "://" ++ c :: host ++ rest)
    with ((scheme ++ codes "://" ++ c :: host) ++ rest) in Hs
    by (rewrite <- !app_assoc; reflexivity).
  destruct (match_text s (f_start f) (length scheme + 3 + S (length host)) _ _ Hs)
    as [Ht Hskip]; [rewrite !length_app; simpl; lia|].
  assert (Hstop : f_stop f = f_start f + (length scheme + 3 + S (length host)))
    by lia.
  exists scheme, c, host. rewrite Htext, Ht, Hstop, Hskip.
  repeat split; auto.
  intros lit Hlit. specialize (Hlits _ Hlit).
  destruct (starts_with lit (c :: host)) eqn:Hst; [|reflexivity].
  rewrite app_comm_cons, (starts_with_app_l _ _ rest Hst) in Hlits.
  discriminate.
Qed.

Lemma In_denylist_nth r :
  In r (denylist castle) -> exists i, nth_error (denylist castle) i = Some r.
Proof. apply In_nth_error. Qed.

(** ** Nothing is missed *)

(** X4: wherever one of the three patterns matches in a text, the rule
    reports a finding that starts at or before that offset and ends
    after it: a match is left out only when an earlier finding of the
    same rule covers its start. *)
Theorem no_match_missed (s : text) (k i n : nat) (r : regex) :
  nth_error (denylist castle) k = Some r ->
  i <= length s -> bt r (skipn i s) = Some n ->
  exists f, In f (analyze_string castle s) /\ f_rule f = k /\
            f_start f <= i < f_stop f.
Proof.
  intros Hr Hi Hb. pose proof (nth_error_denylist _ _ Hr) as Hin.
  pose proof (spans_LeftmostLongest r s (denylist_Longest _ Hin)
                (denylist_NonEmpty _ Hin)) as HLL.
  destruct (LeftmostLongest_covers _ _ _ _ HLL i n (conj (Nat.le_0_l i) Hi)
              (bt_sound _ _ _ Hb)) as (a & b & Hab & Hcov).
  exists (finding_of "Castle/OpenClaw Secret" k s (a, b)).
  split; [exact (In_rule_finding _ _ _ _ Hr Hab) | auto].
Qed.

(** No [r] occurs inside a reward token after its first character. *)
Lemma no_r_inside k h rest t :
  forallb lower_hex h = true -> 1 <= k < 4 + length h ->
  skipn k (codes "rew_" ++ h ++ rest) = ch "r" :: t -> False.
Proof.
  intros Hh Hk Hs.
  destruct k as [|[|[|[|k]]]]; [lia| | | |]; try (simpl in Hs; discriminate).
  change (skipn (S (S (S (S k)))) (codes "rew_" ++ h ++ rest))
    with (skipn k (h ++ rest)) in Hs.
  assert (Hall : forallb lower_hex (firstn (length h) (h ++ rest)) = true).
  { rewrite <- (Nat.add_0_r (length h)), firstn_app_exact. simpl.
    rewrite app_nil_r. exact Hh. }
  assert (Hr : lower_hex (ch "r") = true)
    by (apply (forallb_firstn_nth lower_hex (h ++ rest) (length h) k _ t Hall);
        [lia | exact Hs]).
  discriminate.
Qed.

(** X5: a reward token is found wherever it occurs: whatever text
    precedes it, [rew_] followed by 32 or more lowercase hexadecimal
    digits and then no further one is reported by the reward-token rule
    at its own offsets, whole. *)
Theorem reward_token_found (pre h rest : text) :
  forallb lower_hex h = true -> 32 <= length h -> stops lower_hex rest ->
  In (mkFinding "Castle/OpenClaw Secret" reward_rule
        (length pre) (length pre + 4 + length h) (codes "rew_" ++ h))
     (analyze_string castle (pre ++ codes "rew_" ++ h ++ rest)).
Proof.
  intros Hh Hlen Hrest.
  set (s := pre ++ codes "rew_" ++ h ++ rest).
  assert (Hskip : skipn (length pre) s = codes "rew_" ++ h ++ rest)
    by (unfold s; rewrite skipn_app, skipn_all, Nat.sub_diag; reflexivity).
  assert (Hb : bt reward_re (skipn (length pre) s) = Some (4 + length h)).
  { rewrite Hskip, reward_at_token by assumption.
    destruct (Nat.leb_spec 32 (length h)); [reflexivity | lia]. }
  assert (Hi : length pre <= length s) by (unfold s; rewrite length_app; lia).
  pose proof (spans_LeftmostLongest reward_re s reward_Longest (NonEmpty_Lit _ _))
    as HLL.
  destruct (LeftmostLongest_covers _ _ _ _ HLL (length pre) _
              (conj (Nat.le_0_l _) Hi) (bt_sound _ _ _ Hb))
    as (a & b & Hab & Ha & Hlt).
  pose proof Hab as Hab'. apply spans_In_bt in Hab'. destruct Hab' as [_ Hba].
  destruct (reward_match_shape _ _ Hba) as (h' & rest' & Hs' & Hh' & _ & Hn' & _).
  assert (a = length pre).
  { destruct (Nat.eq_dec a (length pre)) as [|Hne]; [assumption|]. exfalso.
    apply (no_r_inside (length pre - a) h' rest' (codes "ew_" ++ h ++ rest) Hh');
      [lia|].
    rewrite <- Hs', skipn_skipn.
    replace (length pre - a + a) with (length pre) by lia. exact Hskip. }
  subst a. rewrite Hb in Hba. injection Hba as Hba.
  assert (b = length pre + 4 + length h) by lia. subst b.
  replace (mkFinding "Castle/OpenClaw Secret" reward_rule (length pre)
             (length pre + 4 + length h) (codes "rew_" ++ h))
    with (finding_of "Castle/OpenClaw Secret" reward_rule s
            (length pre, length pre + 4 + length h)).
  - exact (In_rule_finding s reward_rule reward_re _ eq_refl Hab).
  - unfold finding_of, slice. cbn [fst snd]. f_equal.
    rewrite app_assoc in Hskip.
    destruct (match_text s (length pre) (4 + length h) _ _ Hskip) as [Ht _];
      [rewrite length_app; reflexivity|].
    rewrite <- Ht. f_equal. lia.
Qed.

(** ** Order of the findings *)

Lemma ForallOrdPairs_app {A} (R : A -> A -> Prop) (l1 l2 : list A) :
  ForallOrdPairs R l1 -> ForallOrdPairs R l2 ->
  (forall x y, In x l1 -> In y l2 -> R x y) ->
  ForallOrdPairs R (l1 ++ l2).
Proof.
  induction 1 as [|x l1 Hx H1 IH]; intros H2 Hcross; simpl; [exact H2|].
  constructor.
  - apply Forall_app. split; [exact Hx|].
    apply Forall_forall. intros y Hy. apply Hcross; [left; reflexivity | exact Hy].
  - apply IH; [exact H2|]. intros a b Ha Hb. apply Hcross; [right; exact Ha | exact Hb].
Qed.

Lemma ForallOrdPairs_map {A B} (R : A -> A -> Prop) (Q : B -> B -> Prop)
    (g : A -> B) (l : list A) :
  (forall x y, R x y -> Q (g x) (g y)) ->
  ForallOrdPairs R l -> ForallOrdPairs Q (map g l).
Proof.
  intros HRQ. induction 1 as [|x l Hx _ IH]; simpl; constructor; [|exact IH].
  apply Forall_map. eapply Forall_impl; [|exact Hx]. intros y. apply HRQ.
Qed.

Lemma rule_findings_ordered s i r :
  In r (denylist castle) ->
  ForallOrdPairs finding_before
    (map (finding_of "Castle/OpenClaw Secret" i s) (spans r s)).
Proof.
  intros Hr. apply ForallOrdPairs_map with (R := disjoint_spans).
  - intros x y Hxy. right. split; [reflexivity | exact Hxy].
  - apply (LeftmostLongest_disjoint r s 0).
    apply spans_LeftmostLongest; [apply denylist_Longest | apply denylist_NonEmpty];
      exact Hr.
Qed.

(** X6: the findings of a run come in the order of the rules in the
    denylist and, within a rule, from left to right without overlap;
    each carries the secret type of the detector and the position of one
    of the three rules. *)
Theorem findings_ordered (s : text) :
  ForallOrdPairs finding_before (analyze_string castle s) /\
  Forall (fun f => f_type f = "Castle/OpenClaw Secret"%string /\ f_rule f < 3)
    (analyze_string castle s).
Proof.
  split.
  - rewrite analyze_castle. cbn [secret_type castle].
    apply ForallOrdPairs_app;
      [apply rule_findings_ordered; simpl; auto| |].
    + apply ForallOrdPairs_app;
        [apply rule_findings_ordered; simpl; auto
        |apply rule_findings_ordered; simpl; auto|].
      intros x y Hx Hy. apply in_map_iff in Hx, Hy.
      destruct Hx as (? & <- & _), Hy as (? & <- & _).
      left. unfold gateway_rule, websocket_rule. simpl. lia.
    + intros x y Hx Hy. apply in_map_iff in Hx. destruct Hx as (? & <- & _).
      left. apply in_app_or in Hy.
      destruct Hy as [Hy|Hy]; apply in_map_iff in Hy;
        destruct Hy as (? & <- & _); unfold reward_rule, gateway_rule, websocket_rule;
        simpl; lia.
  - apply Forall_forall. intros f Hf.
    destruct (analyze_castle_In _ _ Hf) as (r & ab & Hr & _ & Heq).
    split; [rewrite Heq; reflexivity|].
    change 3 with (length (denylist castle)).
    apply nth_error_Some. rewrite Hr. discriminate.
Qed.

(** ** Scanning a finding again *)

Lemma spans_whole r (t : text) :
  bt r t = Some (length t) -> t <> [] -> In (0, length t) (spans r t).
Proof.
  intros Hb Hne. destruct t as [|c t]; [congruence|].
  rewrite (spans_head _ _ _ _ Hb). left. reflexivity.
Qed.

Lemma whole_finding i r (t : text) :
  nth_error (denylist castle) i = Some r ->
  bt r t = Some (length t) -> t <> [] ->
  In (mkFinding "Castle/OpenClaw Secret" i 0 (length t) t) (analyze_string castle t).
Proof.
  intros Hr Hb Hne.
  replace (mkFinding "Castle/OpenClaw Secret" i 0 (length t) t)
    with (finding_of "Castle/OpenClaw Secret" i t (0, length t)).
  - exact (In_rule_finding _ _ _ _ Hr (spans_whole _ _ Hb Hne)).
  - unfold finding_of, slice. cbn [fst snd skipn]. f_equal.
    rewrite Nat.sub_0_r. apply firstn_all.
Qed.

(** X7: a finding is found again in its own matched text: scanning the
    characters of any finding alone reports them under the same rule,
    whole. *)
Theorem finding_found_again (s : text) (f : Finding) :
  In f (analyze_string castle s) ->
  In (mkFinding (f_type f) (f_rule f) 0 (length (f_text f)) (f_text f))
     (analyze_string castle (f_text f)).
Proof.
  intros Hin.
  destruct (analyze_castle_In _ _ Hin) as (r & ab & Hr & _ & Hty).
  assert (Htype : f_type f = "Castle/OpenClaw Secret"%string)
    by (rewrite Hty; reflexivity).
  rewrite Htype. clear Hty ab.
  destruct (finding_match s f r Hin Hr) as (n & Hb & _ & Htext).
  apply (whole_finding _ r); [exact Hr| |].
  - destruct (f_rule f) as [|[|[|k]]]; simpl in Hr.
    + injection Hr as <-.
      destruct (reward_match_shape _ _ Hb) as (h & rest & Hs & Hh & Hlen & -> & _).
      rewrite app_assoc in Hs.
      destruct (match_text s (f_start f) (4 + length h) _ _ Hs) as [Ht _];
        [rewrite length_app; reflexivity|].
      rewrite Htext, Ht. rewrite <- (app_nil_r h) at 1.
      rewrite reward_at_token by (auto; exact I).
      destruct (Nat.leb_spec 32 (length h)); [|lia].
      rewrite length_app. reflexivity.
    + injection Hr as <-.
      destruct (gateway_match_shape _ _ Hb)
        as (ws1 & ws2 & q & v & rest & Hs & H1 & H2 & Hq & Hv & Hlen & Hno & -> & _).
      replace (gateway_key ++ ws1 ++ [ch "="] ++ ws2 ++ q ++ v ++ rest)
        with ((gateway_key ++ ws1 ++ [ch "="] ++ ws2 ++ q ++ v) ++ rest) in Hs
        by (rewrite <- !app_assoc; reflexivity).
      destruct (match_text s (f_start f)
                  (23 + length ws1 + length ws2 + length q + length v) _ _ Hs)
        as [Ht _]; [rewrite !length_app; simpl; lia|].
      rewrite Htext, Ht. rewrite <- (app_nil_r v) at 1.
      rewrite gateway_at_general by (auto; exact I).
      f_equal. rewrite !length_app. simpl. lia.
    + injection Hr as <-.
      destruct (websocket_match_shape _ _ Hb)
        as (scheme & c & host & rest & Hsch & Hs & Hc & Hh & Hlen & Hlits & -> & _).
      replace (scheme ++ codes "://" ++ c :: host ++ rest)
        with ((scheme ++ codes "://" ++ c :: host) ++ rest) in Hs
        by (rewrite <- !app_assoc; reflexivity).
      destruct (match_text s (f_start f) (length scheme + 3 + S (length host)) _ _ Hs)
        as [Ht _]; [rewrite !length_app; simpl; lia|].
      rewrite Htext, Ht. rewrite <- (app_nil_r host) at 1.
      rewrite (websocket_at_scheme _ _ Hsch).
      rewrite websocket_host_run by (auto; exact I).
      replace (existsb (fun lit => starts_with lit (c :: host ++ [])) loopback)
        with false.
      2:{ symmetry. apply not_true_is_false. intros Hex.
          apply existsb_exists in Hex. destruct Hex as (lit & Hl & Hst).
          rewrite app_nil_r in Hst.
          specialize (Hlits _ Hl).
          rewrite app_comm_cons, (starts_with_app_l _ _ rest Hst) in Hlits.
          discriminate. }
      rewrite Hc. destruct (Nat.leb_spec 1 (length host)); [|lia].
      cbn [andb option_map]. f_equal. rewrite !length_app. simpl. lia.
    + destruct k; discriminate.
  - intros Hnil. rewrite Htext in Hnil.
    pose proof (NonEmpty_Lit) as NE.
    assert (Hn0 : n <> 0).
    { intros ->. apply bt_sound in Hb.
      exact (denylist_NonEmpty _ (nth_error_denylist _ _ Hr) _ Hb). }
    assert (Hle : n <= length (skipn (f_start f) s))
      by (exact (Matches_bound _ _ _ (bt_sound _ _ _ Hb))).
    apply (f_equal (@length char)) in Hnil.
    rewrite length_firstn in Hnil. simpl in Hnil. lia.
Qed.

(** ** Short texts *)

(** X8: a finding is never shorter than the shortest text its rule can
    match (36 characters for a reward token, 31 for a gateway
    assignment, 7 for a WebSocket URL), so a text of fewer than 7
    characters, the empty text included, yields no finding. *)
Theorem findings_not_short :
  (forall s f, In f (analyze_string castle s) ->
     length (f_text f) = f_stop f - f_start f /\
     shortest_match (f_rule f) <= length (f_text f)) /\
  (forall s, length s < 7 -> analyze_string castle s = []).
Proof.
  assert (Hlen : forall s f, In f (analyze_string castle s) ->
            length (f_text f) = f_stop f - f_start f /\
            shortest_match (f_rule f) <= length (f_text f)).
  { intros s f Hin.
    destruct (analyze_castle_In _ _ Hin) as (r & _ & Hr & _ & _).
    destruct (finding_match s f r Hin Hr) as (n & Hb & Hn & Htext).
    pose proof (Matches_bound _ _ _ (bt_sound _ _ _ Hb)) as Hle.
    assert (Hl : length (f_text f) = n)
      by (rewrite Htext, length_firstn; lia).
    split; [lia|]. rewrite Hl.
    destruct (f_rule f) as [|[|[|k]]]; simpl in Hr.
    - injection Hr as <-.
      destruct (reward_match_shape _ _ Hb) as (h & _ & _ & _ & ? & -> & _).
      simpl. lia.
    - injection Hr as <-.
      destruct (gateway_match_shape _ _ Hb)
        as (? & ? & ? & v & _ & _ & _ & _ & _ & _ & ? & _ & -> & _).
      simpl. lia.
    - injection Hr as <-.
      destruct (websocket_match_shape _ _ Hb)
        as (scheme & ? & host & _ & Hsch & _ & _ & _ & ? & _ & -> & _).
      destruct Hsch as [<-|[<-|[]]]; simpl; lia.
    - destruct k; discriminate. }
  split; [exact Hlen|].
  intros s Hs. destruct (analyze_string castle s) as [|f l] eqn:Ha; [reflexivity|].
  exfalso.
  assert (Hin : In f (analyze_string castle s)) by (rewrite Ha; left; reflexivity).
  destruct (Hlen s f Hin) as [Hl Hmin].
  assert (Hw : well_placed s f).
  { assert (Hall : Forall (well_placed s) (analyze_string castle s)).
    { unfold analyze_string. apply scan_rules_well_placed. intros r Hr.
      split; [apply denylist_Longest | apply denylist_NonEmpty]; exact Hr. }
    rewrite Forall_forall in Hall. exact (Hall _ Hin). }
  destruct Hw as [[_ Hstop] _].
  assert (7 <= shortest_match (f_rule f))
    by (destruct (f_rule f) as [|[|k]]; simpl; lia).
  lia.
Qed.

(** ** Assignments written with whitespace and a quote *)

Lemma run_split_unique (p : char -> bool) : forall r1 r2 t1 t2 : text,
  forallb p r1 = true -> forallb p r2 = true -> stops p t1 -> stops p t2 ->
  r1 ++ t1 = r2 ++ t2 -> r1 = r2 /\ t1 = t2.
Proof.
  induction r1 as [|x r1 IH]; intros [|y r2] t1 t2 H1 H2 S1 S2 Heq; simpl in *.
  - auto.
  - subst t1. simpl in S1. apply andb_true_iff in H2. destruct H2 as [Hy _].
    congruence.
  - subst t2. simpl in S2. apply andb_true_iff in H1. destruct H1 as [Hx _].
    congruence.
  - injection Heq as -> Heq.
    apply andb_true_iff in H1, H2. destruct H1 as [_ H1], H2 as [_ H2].
    destruct (IH _ _ _ H1 H2 S1 S2 Heq) as [-> ->]. auto.
Qed.

Lemma isspace_space_set ws :
  forallb isspace ws = true -> forallb (in_cset space_set) ws = true.
Proof. rewrite forallb_space_set. auto. Qed.

Lemma stops_quoted (p : char -> bool) q (t : text) :
  In q opening_quotes -> p DQ = false -> p (ch "'") = false -> stops p t ->
  stops p (q ++ t).
Proof. intros [<-|[<-|[<-|[]]]] H1 H2 Ht; simpl; auto. Qed.

(** X9: an assignment is matched with whitespace on either side of the
    equals sign and one opening quote before the value: the key,
    followed by such an assignment of a value of 8 or more characters
    that does not begin with [${], yields a finding of the gateway-token
    rule from the key to the end of the value. *)
Theorem gateway_assignment_found (ws1 ws2 q v rest : text) :
  forallb isspace ws1 = true -> forallb isspace ws2 = true ->
  In q opening_quotes ->
  forallb value_char v = true -> 8 <= length v -> stops value_char rest ->
  starts_with (codes "${") v = false ->
  In (mkFinding "Castle/OpenClaw Secret" gateway_rule 0
        (23 + length ws1 + length ws2 + length q + length v)
        (gateway_key ++ ws1 ++ [ch "="] ++ ws2 ++ q ++ v))
     (analyze_string castle
        (gateway_key ++ ws1 ++ [ch "="] ++ ws2 ++ q ++ v ++ rest)).
Proof.
  intros H1 H2 Hq Hv Hlen Hrest Hno.
  pose proof (gateway_at_general ws1 ws2 q v rest H1 H2 Hq Hv Hlen Hrest Hno) as Hb.
  set (s := gateway_key ++ ws1 ++ [ch "="] ++ ws2 ++ q ++ v ++ rest) in *.
  set (n := 23 + length ws1 + length ws2 + length q + length v) in *.
  assert (Hab : In (0, n) (spans gateway_re s)).
  { change s with (ch "O" :: (codes "PENCLAW_GATEWAY_TOKEN" ++ ws1 ++ [ch "="] ++
                              ws2 ++ q ++ v ++ rest)) in *.
    rewrite (spans_head _ _ _ _ Hb). left. reflexivity. }
  match goal with |- In ?f _ =>
    replace f with (finding_of "Castle/OpenClaw Secret" gateway_rule s (0, n))
  end.
  - exact (In_rule_finding s gateway_rule gateway_re _ eq_refl Hab).
  - unfold finding_of, slice. cbn [fst snd]. f_equal.
    rewrite Nat.sub_0_r.
    assert (Hs : skipn 0 s = (gateway_key ++ ws1 ++ [ch "="] ++ ws2 ++ q ++ v) ++ rest)
      by (unfold s; cbn [skipn]; rewrite <- !app_assoc; reflexivity).
    destruct (match_text s 0 n _ _ Hs) as [Ht _];
      [unfold n; rewrite !length_app; simpl; lia | exact Ht].
Qed.

(** X10: the placeholder is recognised behind whitespace and an opening
    quote as well: when the assignment, written with whitespace on
    either side of the equals sign and at most one opening quote, has a
    value that begins with [${], no finding of the gateway-token rule
    starts at the key. *)
Theorem gateway_placeholder_general (ws1 ws2 q rest : text) (f : Finding) :
  forallb isspace ws1 = true -> forallb isspace ws2 = true ->
  In q opening_quotes ->
  In f (analyze_string castle
          (gateway_key ++ ws1 ++ [ch "="] ++ ws2 ++ q ++ codes "${" ++ rest)) ->
  f_rule f = gateway_rule ->
  1 <= f_start f.
Proof.
  intros H1 H2 Hq Hin Hrule.
  set (s := gateway_key ++ ws1 ++ [ch "="] ++ ws2 ++ q ++ codes "${" ++ rest) in *.
  assert (Hnone : bt gateway_re s = None).
  { destruct (bt gateway_re s) as [n|] eqn:Hb; [exfalso | reflexivity].
    destruct (gateway_match_shape _ _ Hb)
      as (ws1' & ws2' & q' & v & rest' & Hs & H1' & H2' & Hq' & Hv & Hlen & Hno & _ & _).
    assert (Hne : v <> []) by (intros ->; simpl in Hlen; lia).
    unfold s in Hs. apply app_inv_head in Hs.
    apply (run_split_unique isspace) in Hs; auto; try reflexivity.
    destruct Hs as [_ Hs]. injection Hs as Hs.
    apply (run_split_unique isspace) in Hs; auto.
    2:{ apply stops_quoted; auto. reflexivity. }
    2:{ apply stops_quoted; auto.
        apply stops_app with (q := value_char); auto.
        intros c Hc. unfold value_char in Hc.
        destruct (isspace c); [discriminate | reflexivity]. }
    destruct Hs as [_ Hs].
    destruct (opening_quotes_run _ Hq) as [Hqs _].
    destruct (opening_quotes_run _ Hq') as [Hqs' _].
    apply (run_split_unique (in_cset quote_set)) in Hs; auto; try reflexivity.
    2:{ apply stops_app with (q := value_char); auto.
        intros c Hc. apply value_not_quote. rewrite value_set_value_char. exact Hc. }
    destruct Hs as [_ Hs].
    assert (Hst : starts_with (codes "${") (v ++ rest') = true)
      by (rewrite <- Hs; exact (starts_with_app (codes "${") rest)).
    rewrite starts_with_app_r in Hst by (simpl; lia). congruence. }
  destruct (analyze_castle_In _ _ Hin) as (r & [a b] & Hr & Hab & Heq).
  rewrite Hrule in Hr. injection Hr as <-.
  pose proof (spans_not_at_start _ _ Hnone) as Hall.
  rewrite Forall_forall in Hall. rewrite Heq. exact (Hall _ Hab).
Qed.

(** ** Two rules on the same characters *)

Lemma lower_hex_value_char c : lower_hex c = true -> value_char c = true.
Proof.
  unfold lower_hex.
  change (ch "0") with 48%N. change (ch "9") with 57%N.
  change (ch "a") with 97%N. change (ch "f") with 102%N.
  rewrite orb_true_iff, !andb_true_iff, !N.leb_le. intros Hc.
  assert (H128 : (c <? 128)%N = true) by (apply N.ltb_lt; lia).
  assert (Hsp : ascii_isspace c = false).
  { unfold ascii_isspace. apply orb_false_iff.
    split; apply andb_false_iff; right; apply N.leb_gt; lia. }
  assert (Hdq : (c =? DQ)%N = false) by (apply N.eqb_neq; unfold DQ; lia).
  assert (Hsq : (c =? ch "'")%N = false)
    by (apply N.eqb_neq; change (ch "'") with 39%N; lia).
  unfold value_char, isspace. rewrite H128, Hsp, Hdq, Hsq. reflexivity.
Qed.

Lemma forallb_hex_value h :
  forallb lower_hex h = true -> forallb value_char h = true.
Proof.
  induction h as [|c h IH]; simpl; [reflexivity|].
  rewrite !andb_true_iff. intros [Hc Hh]. auto using lower_hex_value_char.
Qed.

Lemma finditer_shift r s : forall skip pos,
  finditer r skip pos s =
  map (fun ab => (pos + fst ab, pos + snd ab)) (finditer r skip 0 s).
Proof.
  induction s as [|c t IH]; intros skip pos; simpl.
  - destruct skip; [|reflexivity].
    destruct (bt r []); simpl; [rewrite Nat.add_0_r|]; reflexivity.
  - assert (Hrec : forall k, finditer r k (S pos) t =
              map (fun ab => (pos + fst ab, pos + snd ab)) (finditer r k 1 t)).
    { intros k. rewrite (IH k (S pos)), (IH k 1), map_map.
      apply map_ext. intros [a b]. simpl. f_equal; lia. }
    destruct skip as [|k]; [|apply Hrec].
    destruct (bt r (c :: t)); simpl; [|apply Hrec].
    rewrite Nat.add_0_r, Hrec. reflexivity.
Qed.

(** X11: the rules run independently of one another: when the value of
    an assignment is itself a reward token, the run reports the token
    under the reward-token rule and the whole assignment under the
    gateway-token rule, in that order, and nothing else. *)
Theorem token_as_gateway_value (h : text) :
  forallb lower_hex h = true -> 32 <= length h ->
  analyze_string castle (codes "OPENCLAW_GATEWAY_TOKEN=" ++ codes "rew_" ++ h) =
  [mkFinding "Castle/OpenClaw Secret" reward_rule 23 (27 + length h)
     (codes "rew_" ++ h);
   mkFinding "Castle/OpenClaw Secret" gateway_rule 0 (27 + length h)
     (codes "OPENCLAW_GATEWAY_TOKEN=" ++ codes "rew_" ++ h)].
Proof.
  intros Hh Hlen. rewrite analyze_castle.
  set (s := codes "OPENCLAW_GATEWAY_TOKEN=" ++ codes "rew_" ++ h).
  assert (Hslen : length s = 27 + length h)
    by (unfold s; rewrite !length_app; reflexivity).
  assert (Hr : spans reward_re s = [(23, 27 + length h)]).
  { unfold spans.
    change (finditer reward_re 0 0 s)
      with (finditer reward_re 0 23 (codes "rew_" ++ h)).
    rewrite finditer_shift. fold (spans reward_re (codes "rew_" ++ h)).
    rewrite reward_spans_token by exact Hh.
    destruct (Nat.leb_spec 32 (length h)); [|lia].
    simpl. repeat f_equal. }
  assert (Hg : spans gateway_re s = [(0, 27 + length h)]).
  { assert (Hv : forallb value_char (codes "rew_" ++ h) = true)
      by (rewrite forallb_app, (forallb_hex_value _ Hh); reflexivity).
    pose proof (gateway_at_assignment (codes "rew_" ++ h) [] Hv) as Hb.
    rewrite app_nil_r in Hb.
    change (starts_with (codes "${") (codes "rew_" ++ h)) with false in Hb.
    rewrite length_app in Hb. specialize (Hb ltac:(simpl; lia) I).
    fold s in Hb.
    assert (Ht : length (codes "PENCLAW_GATEWAY_TOKEN=" ++ codes "rew_" ++ h) =
                 26 + length h) by (rewrite !length_app; reflexivity).
    change s with (ch "O" :: (codes "PENCLAW_GATEWAY_TOKEN=" ++ codes "rew_" ++ h))
      in Hb |- *.
    rewrite (spans_head _ _ _ _ Hb).
    rewrite finditer_covered; [reflexivity | rewrite Ht; simpl; lia | reflexivity]. }
  assert (Hw : spans websocket_re s = []).
  { unfold spans.
    change (finditer websocket_re 0 0 s) with (finditer websocket_re 0 27 h).
    exact (proj2 (proj2 (quiet_text lower_hex h 27 Hh eq_refl eq_refl eq_refl))). }
  rewrite Hr, Hg, Hw. cbn [map app secret_type castle].
  unfold finding_of, slice. cbn [fst snd]. f_equal; [|f_equal]; f_equal.
  - replace (27 + length h - 23) with (4 + length h) by lia.
    change (skipn 23 s) with (codes "rew_" ++ h).
    apply firstn_all2. rewrite length_app. simpl. lia.
  - rewrite Nat.sub_0_r. cbn [skipn]. apply firstn_all2. lia.
Qed.

End Detector.

(** * The claims at concrete texts *)

Local Open Scope nat_scope.

Lemma reward_token_boundary_witness :
  forallb lower_hex (codes "0123456789abcdef0123456789abcdef") = true /\
  length (codes "0123456789abcdef0123456789abcdef") = 32 /\
  analyze_string ascii_only ascii_only castle
    (codes "rew_" ++ codes "0123456789abcdef0123456789abcdef") =
  [mkFinding "Castle/OpenClaw Secret" reward_rule 0 36
     (codes "rew_" ++ codes "0123456789abcdef0123456789abcdef")] /\
  forallb lower_hex (codes "0123456789abcdef0123456789abcde") = true /\
  length (codes "0123456789abcdef0123456789abcde") = 31 /\
  analyze_string ascii_only ascii_only castle
    (codes "rew_" ++ codes "0123456789abcdef0123456789abcde") = [].
Proof.
  split; [reflexivity|]. split; [reflexivity|].
  split.
  - exact (proj1 (proj1 (reward_token_boundary ascii_only ascii_only
             (codes "0123456789abcdef0123456789abcdef") eq_refl) eq_refl)).
  - split; [reflexivity|]. split; [reflexivity|].
    exact (proj1 (proj2 (reward_token_boundary ascii_only ascii_only
             (codes "0123456789abcdef0123456789abcde") eq_refl) eq_refl)).
Defined.

(** C4 as stated fails: a remote host written as an IPv6 literal, and a
    host of one character, are none of the three loopback literals and
    yield no finding, since the pattern asks for an ASCII letter or
    digit followed by at least one host character. *)
Lemma websocket_host_counterexample :
  analyze_string ascii_only ascii_only castle
    (codes "wss://[2001:db8::1]:8443/gateway") = [] /\
  analyze_string ascii_only ascii_only castle (codes "ws://a/socket") = [].
Proof. split; vm_compute; reflexivity. Qed.

Lemma websocket_loopback_rule_witness :
  (In (codes "ws") schemes /\ In (codes "localhost") loopback /\
   host_ends (codes ":8080/proxy?target=ws://backend.internal:9000") /\
   In (mkFinding "Castle/OpenClaw Secret" websocket_rule 37 63
         (codes "ws://backend.internal:9000"))
      (analyze_string ascii_only ascii_only castle
         (codes "see " ++ codes "ws" ++ codes "://" ++ codes "localhost" ++
          codes ":8080/proxy?target=ws://backend.internal:9000")) /\
   (37 < length (codes "see ") \/
    length (codes "see ") +
    length (codes "ws" ++ codes "://" ++ codes "localhost") <= 37)) /\
  (In (codes "wss") schemes /\ ascii_isalnum (ch "g") = true /\
   1 <= length (codes "ateway.example.com") /\
   forallb (host_char ascii_only) (codes "ateway.example.com") = true /\
   stops (host_char ascii_only) (codes "/path") /\
   exists f,
     In f (analyze_string ascii_only ascii_only castle
             (codes "url: " ++ codes "wss" ++ codes "://" ++
              ch "g" :: codes "ateway.example.com" ++ codes "/path")) /\
     f_rule f = websocket_rule /\
     f_start f <= length (codes "url: ") < f_stop f /\
     (f_start f = length (codes "url: ") ->
        f_stop f = length (codes "url: ") +
                   (length (codes "wss") + 3 +
                    S (length (codes "ateway.example.com"))) /\
        f_text f = codes "wss" ++ codes "://" ++
                   ch "g" :: codes "ateway.example.com")) /\
  In (mkFinding "Castle/OpenClaw Secret" websocket_rule 0 25
        (codes "wss" ++ codes "://" ++ ch "g" :: codes "ateway.example.com"))
     (analyze_string ascii_only ascii_only castle
        (codes "wss" ++ codes "://" ++
         ch "g" :: codes "ateway.example.com" ++ codes "/path")) /\
  (host_shape ascii_only (codes "[::1]/x ws://gateway.example.com") = false /\
   In (mkFinding "Castle/OpenClaw Secret" websocket_rule 17 41
         (codes "ws://gateway.example.com"))
      (analyze_string ascii_only ascii_only castle
         (codes "see " ++ codes "ws" ++ codes "://" ++
          codes "[::1]/x ws://gateway.example.com")) /\
   17 <> length (codes "see ")) /\
  (host_ends (codes ":8080/?OPENCLAW_GATEWAY_TOKEN=abcdefgh") /\
   ~ In (ch "w") (codes ":8080/?OPENCLAW_GATEWAY_TOKEN=abcdefgh") /\
   In (mkFinding "Castle/OpenClaw Secret" gateway_rule 22 53
         (codes "OPENCLAW_GATEWAY_TOKEN=abcdefgh"))
      (analyze_string ascii_only ascii_only castle
         (codes "wss" ++ codes "://" ++ codes "localhost" ++
          codes ":8080/?OPENCLAW_GATEWAY_TOKEN=abcdefgh")) /\
   gateway_rule <> websocket_rule) /\
  (host_shape ascii_only (codes "[::1]/?OPENCLAW_GATEWAY_TOKEN=abcdefgh") = false /\
   ~ In (ch "w") (codes "[::1]/?OPENCLAW_GATEWAY_TOKEN=abcdefgh") /\
   In (mkFinding "Castle/OpenClaw Secret" gateway_rule 12 43
         (codes "OPENCLAW_GATEWAY_TOKEN=abcdefgh"))
      (analyze_string ascii_only ascii_only castle
         (codes "ws" ++ codes "://" ++
          codes "[::1]/?OPENCLAW_GATEWAY_TOKEN=abcdefgh")) /\
   gateway_rule <> websocket_rule).
Proof.
  assert (Hs1 : In (codes "ws") schemes) by (left; reflexivity).
  assert (Hs2 : In (codes "wss") schemes) by (right; left; reflexivity).
  assert (Hl : In (codes "localhost") loopback) by (left; reflexivity).
  assert (He1 : host_ends (codes ":8080/proxy?target=ws://backend.internal:9000"))
    by (left; reflexivity).
  assert (Hf1 : In (mkFinding "Castle/OpenClaw Secret" websocket_rule 37 63
                      (codes "ws://backend.internal:9000"))
                   (analyze_string ascii_only ascii_only castle
                      (codes "see " ++ codes "ws" ++ codes "://" ++
                       codes "localhost" ++
                       codes ":8080/proxy?target=ws://backend.internal:9000")))
    by (left; vm_compute; reflexivity).
  assert (Hlen : 1 <= length (codes "ateway.example.com")) by (simpl; lia).
  assert (Hlits : forall lit, In lit loopback ->
            starts_with lit (ch "g" :: codes "ateway.example.com" ++ codes "/path") =
            false)
    by (intros lit [<-|[<-|[<-|[]]]]; reflexivity).
  assert (Hf4 : In (mkFinding "Castle/OpenClaw Secret" websocket_rule 17 41
                      (codes "ws://gateway.example.com"))
                   (analyze_string ascii_only ascii_only castle
                      (codes "see " ++ codes "ws" ++ codes "://" ++
                       codes "[::1]/x ws://gateway.example.com")))
    by (left; vm_compute; reflexivity).
  assert (He5 : host_ends (codes ":8080/?OPENCLAW_GATEWAY_TOKEN=abcdefgh"))
    by (left; reflexivity).
  assert (Hw5 : ~ In (ch "w") (codes ":8080/?OPENCLAW_GATEWAY_TOKEN=abcdefgh"))
    by (apply absent_by_test; reflexivity).
  assert (Hf5 : In (mkFinding "Castle/OpenClaw Secret" gateway_rule 22 53
                      (codes "OPENCLAW_GATEWAY_TOKEN=abcdefgh"))
                   (analyze_string ascii_only ascii_only castle
                      (codes "wss" ++ codes "://" ++ codes "localhost" ++
                       codes ":8080/?OPENCLAW_GATEWAY_TOKEN=abcdefgh")))
    by (left; vm_compute; reflexivity).
  assert (Hw6 : ~ In (ch "w") (codes "[::1]/?OPENCLAW_GATEWAY_TOKEN=abcdefgh"))
    by (apply absent_by_test; reflexivity).
  assert (Hf6 : In (mkFinding "Castle/OpenClaw Secret" gateway_rule 12 43
                      (codes "OPENCLAW_GATEWAY_TOKEN=abcdefgh"))
                   (analyze_string ascii_only ascii_only castle
                      (codes "ws" ++ codes "://" ++
                       codes "[::1]/?OPENCLAW_GATEWAY_TOKEN=abcdefgh")))
    by (left; vm_compute; reflexivity).
  pose proof (websocket_loopback_rule ascii_only ascii_only)
    as (P1 & P2 & P3 & P4 & P5 & P6).
  split; [|split; [|split; [|split; [|split]]]].
  - repeat (split; [assumption|]).
    exact (P1 (codes "see ") _ _ _ _ Hs1 Hl He1 Hf1 eq_refl).
  - split; [exact Hs2|]. split; [reflexivity|]. split; [exact Hlen|].
    split; [reflexivity|]. split; [reflexivity|].
    exact (P2 (codes "url: ") (codes "wss") (ch "g") (codes "ateway.example.com")
             (codes "/path") Hs2 eq_refl Hlen eq_refl eq_refl Hlits).
  - exact (P3 (codes "wss") (ch "g") (codes "ateway.example.com") (codes "/path")
             Hs2 eq_refl Hlen eq_refl eq_refl Hlits).
  - split; [reflexivity|]. split; [exact Hf4|].
    exact (P4 (codes "see ") (codes "ws") (codes "[::1]/x ws://gateway.example.com")
             _ Hs1 eq_refl Hf4 eq_refl).
  - split; [exact He5|]. split; [exact Hw5|]. split; [exact Hf5|].
    exact (P5 (codes "wss") (codes "localhost")
             (codes ":8080/?OPENCLAW_GATEWAY_TOKEN=abcdefgh") _ Hs2 Hl He5 Hw5 Hf5).
  - split; [reflexivity|]. split; [exact Hw6|]. split; [exact Hf6|].
    exact (P6 (codes "ws") (codes "[::1]/?OPENCLAW_GATEWAY_TOKEN=abcdefgh") _
             Hs1 eq_refl Hw6 Hf6).
Defined.

Lemma denylist_leftmost_longest_witness :
  In websocket_re (denylist castle) /\
  ForallOrdPairs disjoint_spans
    (spans ascii_only ascii_only websocket_re
       (codes "ws://aws://b wss://gateway.example.com/")) /\
  forallb lower_hex (codes "0123456789abcdef0123456789abcdef01234567") = true /\
  length (codes "0123456789abcdef0123456789abcdef01234567") = 40 /\
  spans ascii_only ascii_only reward_re
    (codes "rew_" ++ codes "0123456789abcdef0123456789abcdef01234567") = [(0, 44)].
Proof.
  assert (Hin : In websocket_re (denylist castle))
    by (right; right; left; reflexivity).
  split; [exact Hin|]. split.
  - exact (proj2 (proj1 (denylist_leftmost_longest ascii_only ascii_only)
             websocket_re (codes "ws://aws://b wss://gateway.example.com/") Hin)).
  - split; [reflexivity|]. split; [reflexivity|].
    exact (proj1 (proj2 (denylist_leftmost_longest ascii_only ascii_only)
             (codes "0123456789abcdef0123456789abcdef01234567") eq_refl eq_refl)).
Defined.

Lemma scan_deterministic_witness :
  scan ascii_only ascii_only (codes "wss://gateway.example.com/path") =
  scan ascii_only ascii_only (codes "wss://gateway.example.com/path") /\
  In websocket_re (denylist castle) /\
  LeftmostLongest ascii_only ascii_only websocket_re
    (codes "wss://gateway.example.com/path") 0 [(0, 25)] /\
  [(0, 25)] =
  spans ascii_only ascii_only websocket_re (codes "wss://gateway.example.com/path").
Proof.
  assert (Hin : In websocket_re (denylist castle))
    by (right; right; left; reflexivity).
  assert (HLL : LeftmostLongest ascii_only ascii_only websocket_re
                  (codes "wss://gateway.example.com/path") 0 [(0, 25)]).
  { change [(0, 25)] with
      (spans ascii_only ascii_only websocket_re
         (codes "wss://gateway.example.com/path")).
    apply spans_LeftmostLongest; [apply websocket_Longest | apply NonEmpty_Lit]. }
  split.
  - exact (proj1 (scan_deterministic ascii_only ascii_only
             (codes "wss://gateway.example.com/path")) _ _ eq_refl eq_refl).
  - split; [exact Hin|]. split; [exact HLL|].
    exact (proj2 (scan_deterministic ascii_only ascii_only
             (codes "wss://gateway.example.com/path")) _ _ Hin HLL).
Defined.

Lemma patterns_compile_at_definition_witness :
  define_detector "Castle/OpenClaw Secret" denylist_patterns = Ok castle /\
  Forall2 (fun p r => re_compile p = Ok r) denylist_patterns (denylist castle).
Proof.
  assert (H : define_detector "Castle/OpenClaw Secret" denylist_patterns = Ok castle)
    by (vm_compute; reflexivity).
  split; [exact H|].
  exact (proj1 (proj2 (proj2 (proj2 (proj2
           (patterns_compile_at_definition ascii_only ascii_only))))) _ _ _ H).
Defined.

Lemma gateway_dollar_reference_witness :
  forallb (value_char ascii_only) (codes "$GATEWAY_SECRET1") = true /\
  8 <= length (codes "$GATEWAY_SECRET1") /\
  stops (value_char ascii_only) [] /\
  starts_with (codes "${") (codes "$GATEWAY_SECRET1") = false /\
  In (mkFinding "Castle/OpenClaw Secret" gateway_rule 0
        (23 + length (codes "$GATEWAY_SECRET1"))
        (codes "OPENCLAW_GATEWAY_TOKEN=" ++ codes "$GATEWAY_SECRET1"))
     (analyze_string ascii_only ascii_only castle
        (codes "OPENCLAW_GATEWAY_TOKEN=" ++ codes "$GATEWAY_SECRET1" ++ [])).
Proof.
  assert (Hlen : 8 <= length (codes "$GATEWAY_SECRET1")) by (simpl; lia).
  split; [reflexivity|]. split; [exact Hlen|]. split; [exact I|].
  split; [reflexivity|].
  exact (proj1 (gateway_dollar_reference ascii_only ascii_only)
           (codes "$GATEWAY_SECRET1") [] eq_refl Hlen I eq_refl).
Defined.

Lemma rules_case_sensitive_witness :
  forallb lower_hex (codes "0123456789abcdef0123456789abcdef") = true /\
  analyze_string ascii_only ascii_only castle
    (codes "REW_" ++ codes "0123456789abcdef0123456789abcdef") = [] /\
  forallb upper_hex (codes "0123456789ABCDEF0123456789ABCDEF") = true /\
  length (codes "0123456789ABCDEF0123456789ABCDEF") = 32 /\
  existsb upper_letter (codes "0123456789ABCDEF0123456789ABCDEF") = true /\
  analyze_string ascii_only ascii_only castle
    (codes "rew_" ++ codes "0123456789ABCDEF0123456789ABCDEF") = [].
Proof.
  split; [reflexivity|]. split.
  - exact (proj1 (rules_case_sensitive ascii_only ascii_only)
             (codes "0123456789abcdef0123456789abcdef") eq_refl).
  - split; [reflexivity|]. split; [reflexivity|]. split; [reflexivity|].
    exact (proj1 (proj2 (rules_case_sensitive ascii_only ascii_only))
             (codes "0123456789ABCDEF0123456789ABCDEF") eq_refl eq_refl eq_refl).
Defined.

(** * The further properties at concrete texts *)

Lemma reward_finding_shape_witness :
  In (mkFinding "Castle/OpenClaw Secret" reward_rule 2 38
        (codes "rew_0123456789abcdef0123456789abcdef"))
     (analyze_string ascii_only ascii_only castle
        (codes "x rew_0123456789abcdef0123456789abcdef!")) /\
  exists h,
    codes "rew_0123456789abcdef0123456789abcdef" = codes "rew_" ++ h /\
    forallb lower_hex h = true /\ 32 <= length h /\
    38 = 2 + 4 + length h /\
    stops lower_hex (skipn 38 (codes "x rew_0123456789abcdef0123456789abcdef!")).
Proof.
  assert (Hin : In (mkFinding "Castle/OpenClaw Secret" reward_rule 2 38
                      (codes "rew_0123456789abcdef0123456789abcdef"))
                   (analyze_string ascii_only ascii_only castle
                      (codes "x rew_0123456789abcdef0123456789abcdef!")))
    by (left; vm_compute; reflexivity).
  split; [exact Hin|].
  exact (reward_finding_shape ascii_only ascii_only _ _ Hin eq_refl).
Defined.

Lemma gateway_finding_shape_witness :
  In (mkFinding "Castle/OpenClaw Secret" gateway_rule 0 36
        (codes "OPENCLAW_GATEWAY_TOKEN = 'abcdef1234"))
     (analyze_string ascii_only ascii_only castle
        (codes "OPENCLAW_GATEWAY_TOKEN = 'abcdef1234'")) /\
  exists ws1 ws2 q v,
    codes "OPENCLAW_GATEWAY_TOKEN = 'abcdef1234" =
      gateway_key ++ ws1 ++ [ch "="] ++ ws2 ++ q ++ v /\
    forallb (isspace ascii_only) ws1 = true /\
    forallb (isspace ascii_only) ws2 = true /\
    In q opening_quotes /\
    forallb (value_char ascii_only) v = true /\ 8 <= length v /\
    starts_with (codes "${") v = false /\
    stops (value_char ascii_only)
      (skipn 36 (codes "OPENCLAW_GATEWAY_TOKEN = 'abcdef1234'")).
Proof.
  assert (Hin : In (mkFinding "Castle/OpenClaw Secret" gateway_rule 0 36
                      (codes "OPENCLAW_GATEWAY_TOKEN = 'abcdef1234"))
                   (analyze_string ascii_only ascii_only castle
                      (codes "OPENCLAW_GATEWAY_TOKEN = 'abcdef1234'")))
    by (left; vm_compute; reflexivity).
  split; [exact Hin|].
  exact (gateway_finding_shape ascii_only ascii_only _ _ Hin eq_refl).
Defined.

Lemma websocket_finding_shape_witness :
  In (mkFinding "Castle/OpenClaw Secret" websocket_rule 0 25
        (codes "wss://gateway.example.com"))
     (analyze_string ascii_only ascii_only castle
        (codes "wss://gateway.example.com/path")) /\
  exists scheme c host,
    In scheme schemes /\
    codes "wss://gateway.example.com" = scheme ++ codes "://" ++ c :: host /\
    ascii_isalnum c = true /\ forallb (host_char ascii_only) host = true /\
    1 <= length host /\
    (forall lit, In lit loopback -> starts_with lit (c :: host) = false) /\
    stops (host_char ascii_only)
      (skipn 25 (codes "wss://gateway.example.com/path")).
Proof.
  assert (Hin : In (mkFinding "Castle/OpenClaw Secret" websocket_rule 0 25
                      (codes "wss://gateway.example.com"))
                   (analyze_string ascii_only ascii_only castle
                      (codes "wss://gateway.example.com/path")))
    by (left; vm_compute; reflexivity).
  split; [exact Hin|].
  exact (websocket_finding_shape ascii_only ascii_only _ _ Hin eq_refl).
Defined.

Lemma no_match_missed_witness :
  nth_error (denylist castle) websocket_rule = Some websocket_re /\
  6 <= length (codes "ws://aws://bc") /\
  bt ascii_only ascii_only websocket_re (skipn 6 (codes "ws://aws://bc")) = Some 7 /\
  exists f,
    In f (analyze_string ascii_only ascii_only castle (codes "ws://aws://bc")) /\
    f_rule f = websocket_rule /\ f_start f <= 6 < f_stop f.
Proof.
  assert (Hlen : 6 <= length (codes "ws://aws://bc")) by (simpl; lia).
  assert (Hb : bt ascii_only ascii_only websocket_re
                 (skipn 6 (codes "ws://aws://bc")) = Some 7)
    by (vm_compute; reflexivity).
  split; [reflexivity|]. split; [exact Hlen|]. split; [exact Hb|].
  exact (no_match_missed ascii_only ascii_only (codes "ws://aws://bc")
           websocket_rule 6 7 websocket_re eq_refl Hlen Hb).
Defined.

Lemma reward_token_found_witness :
  forallb lower_hex (codes "0123456789abcdef0123456789abcdef") = true /\
  32 <= length (codes "0123456789abcdef0123456789abcdef") /\
  stops lower_hex (codes "!") /\
  In (mkFinding "Castle/OpenClaw Secret" reward_rule
        (length (codes "token: "))
        (length (codes "token: ") + 4 +
         length (codes "0123456789abcdef0123456789abcdef"))
        (codes "rew_" ++ codes "0123456789abcdef0123456789abcdef"))
     (analyze_string ascii_only ascii_only castle
        (codes "token: " ++ codes "rew_" ++
         codes "0123456789abcdef0123456789abcdef" ++ codes "!")).
Proof.
  assert (Hlen : 32 <= length (codes "0123456789abcdef0123456789abcdef"))
    by (simpl; lia).
  split; [reflexivity|]. split; [exact Hlen|]. split; [reflexivity|].
  exact (reward_token_found ascii_only ascii_only (codes "token: ")
           (codes "0123456789abcdef0123456789abcdef") (codes "!")
           eq_refl Hlen eq_refl).
Defined.

Lemma finding_found_again_witness :
  In (mkFinding "Castle/OpenClaw Secret" gateway_rule 0 36
        (codes "OPENCLAW_GATEWAY_TOKEN = 'abcdef1234"))
     (analyze_string ascii_only ascii_only castle
        (codes "OPENCLAW_GATEWAY_TOKEN = 'abcdef1234'")) /\
  In (mkFinding "Castle/OpenClaw Secret" gateway_rule 0
        (length (codes "OPENCLAW_GATEWAY_TOKEN = 'abcdef1234"))
        (codes "OPENCLAW_GATEWAY_TOKEN = 'abcdef1234"))
     (analyze_string ascii_only ascii_only castle
        (codes "OPENCLAW_GATEWAY_TOKEN = 'abcdef1234")).
Proof.
  assert (Hin : In (mkFinding "Castle/OpenClaw Secret" gateway_rule 0 36
                      (codes "OPENCLAW_GATEWAY_TOKEN = 'abcdef1234"))
                   (analyze_string ascii_only ascii_only castle
                      (codes "OPENCLAW_GATEWAY_TOKEN = 'abcdef1234'")))
    by (left; vm_compute; reflexivity).
  split; [exact Hin|].
  exact (finding_found_again ascii_only ascii_only _ _ Hin).
Defined.

Lemma findings_not_short_witness :
  In (mkFinding "Castle/OpenClaw Secret" websocket_rule 0 7 (codes "ws://ab"))
     (analyze_string ascii_only ascii_only castle (codes "ws://ab")) /\
  shortest_match websocket_rule <= length (codes "ws://ab") /\
  length (codes "ws://a") < 7 /\
  analyze_string ascii_only ascii_only castle (codes "ws://a") = [].
Proof.
  assert (Hin : In (mkFinding "Castle/OpenClaw Secret" websocket_rule 0 7
                      (codes "ws://ab"))
                   (analyze_string ascii_only ascii_only castle (codes "ws://ab")))
    by (left; vm_compute; reflexivity).
  assert (Hlen : length (codes "ws://a") < 7) by (simpl; lia).
  split; [exact Hin|]. split.
  - exact (proj2 (proj1 (findings_not_short ascii_only ascii_only) _ _ Hin)).
  - split; [exact Hlen|].
    exact (proj2 (findings_not_short ascii_only ascii_only) _ Hlen).
Defined.

Lemma gateway_assignment_found_witness :
  forallb (isspace ascii_only) (codes " ") = true /\
  In [ch "'"] opening_quotes /\
  forallb (value_char ascii_only) (codes "abcdef1234") = true /\
  8 <= length (codes "abcdef1234") /\
  stops (value_char ascii_only) (codes "'") /\
  starts_with (codes "${") (codes "abcdef1234") = false /\
  In (mkFinding "Castle/OpenClaw Secret" gateway_rule 0
        (23 + length (codes " ") + length (codes " ") + length [ch "'"] +
         length (codes "abcdef1234"))
        (gateway_key ++ codes " " ++ [ch "="] ++ codes " " ++ [ch "'"] ++
         codes "abcdef1234"))
     (analyze_string ascii_only ascii_only castle
        (gateway_key ++ codes " " ++ [ch "="] ++ codes " " ++ [ch "'"] ++
         codes "abcdef1234" ++ codes "'")).
Proof.
  assert (Hq : In [ch "'"] opening_quotes) by (right; right; left; reflexivity).
  assert (Hlen : 8 <= length (codes "abcdef1234")) by (simpl; lia).
  split; [reflexivity|]. split; [exact Hq|]. split; [reflexivity|].
  split; [exact Hlen|]. split; [reflexivity|]. split; [reflexivity|].
  exact (gateway_assignment_found ascii_only ascii_only (codes " ") (codes " ")
           [ch "'"] (codes "abcdef1234") (codes "'")
           eq_refl eq_refl Hq eq_refl Hlen eq_refl eq_refl).
Defined.

Lemma gateway_placeholder_general_witness :
  forallb (isspace ascii_only) (codes " ") = true /\
  In [DQ] opening_quotes /\
  In (mkFinding "Castle/OpenClaw Secret" gateway_rule 33 64
        (codes "OPENCLAW_GATEWAY_TOKEN=abcdefgh"))
     (analyze_string ascii_only ascii_only castle
        (gateway_key ++ codes " " ++ [ch "="] ++ codes " " ++ [DQ] ++ codes "${" ++
         codes "VAR} OPENCLAW_GATEWAY_TOKEN=abcdefgh")) /\
  1 <= 33.
Proof.
  assert (Hq : In [DQ] opening_quotes) by (right; left; reflexivity).
  assert (Hin : In (mkFinding "Castle/OpenClaw Secret" gateway_rule 33 64
                      (codes "OPENCLAW_GATEWAY_TOKEN=abcdefgh"))
                   (analyze_string ascii_only ascii_only castle
                      (gateway_key ++ codes " " ++ [ch "="] ++ codes " " ++ [DQ] ++
                       codes "${" ++ codes "VAR} OPENCLAW_GATEWAY_TOKEN=abcdefgh")))
    by (left; vm_compute; reflexivity).
  split; [reflexivity|]. split; [exact Hq|]. split; [exact Hin|].
  exact (gateway_placeholder_general ascii_only ascii_only (codes " ") (codes " ")
           [DQ] (codes "VAR} OPENCLAW_GATEWAY_TOKEN=abcdefgh") _
           eq_refl eq_refl Hq Hin eq_refl).
Defined.

Lemma token_as_gateway_value_witness :
  forallb lower_hex (codes "0123456789abcdef0123456789abcdef") = true /\
  32 <= length (codes "0123456789abcdef0123456789abcdef") /\
  analyze_string ascii_only ascii_only castle
    (codes "OPENCLAW_GATEWAY_TOKEN=" ++ codes "rew_" ++
     codes "0123456789abcdef0123456789abcdef") =
  [mkFinding "Castle/OpenClaw Secret" reward_rule 23
     (27 + length (codes "0123456789abcdef0123456789abcdef"))
     (codes "rew_" ++ codes "0123456789abcdef0123456789abcdef");
   mkFinding "Castle/OpenClaw Secret" gateway_rule 0
     (27 + length (codes "0123456789abcdef0123456789abcdef"))
     (codes "OPENCLAW_GATEWAY_TOKEN=" ++ codes "rew_" ++
      codes "0123456789abcdef0123456789abcdef")].
Proof.
  assert (Hlen : 32 <= length (codes "0123456789abcdef0123456789abcdef"))
    by (simpl; lia).
  split; [reflexivity|]. split; [exact Hlen|].
  exact (token_as_gateway_value ascii_only ascii_only
           (codes "0123456789abcdef0123456789abcdef") eq_refl Hlen).
Defined.
